(** * freebox.js: the Freebox server node of node-red-contrib-freebox

    A shallow embedding of [src/freebox.js] (class [FreeboxServerNode]) and
    the properties of its registration, session and signed-call logic.

    - JavaScript values are a small inductive type; objects are association
      lists in insertion order.
    - A method that returns a promise is a state transformer returning a
      settlement; the transport ([axios]) answers from a script of pending
      responses carried by the state.
    - [crypto.createHmac('sha1', key).update(msg).digest('hex')] is computed
      by an executable HMAC-SHA1 over 32-bit words held in [Z]. *)

From Stdlib Require Import ZArith List String Ascii Bool Lia.
From Stdlib Require Import DecimalString.
Import ListNotations.
Local Open Scope string_scope.
Local Open Scope Z_scope.

(** ** Node's [crypto]: HMAC-SHA1 with hexadecimal digest *)

Module Crypto.

Local Open Scope list_scope.

Definition byte := Z.
Definition word := Z.

Definition mask32 : Z := 4294967295.
Definition add32 (a b : word) : word := Z.land (a + b) mask32.
Definition not32 (a : word) : word := Z.lxor a mask32.
Definition rotl32 (n : Z) (a : word) : word :=
  Z.land (Z.lor (Z.shiftl a n) (Z.shiftr a (32 - n))) mask32.

Definition bytes_of_string (s : string) : list byte :=
  map (fun c => Z.of_N (N_of_ascii c)) (list_ascii_of_string s).

(** Big-endian encoding of [v] on [n] bytes. *)
Fixpoint be_bytes (n : nat) (v : Z) : list byte :=
  match n with
  | O => []
  | S n' => Z.land (Z.shiftr v (8 * Z.of_nat n')) 255 :: be_bytes n' v
  end.

Definition word_of_bytes (b3 b2 b1 b0 : byte) : word :=
  Z.lor (Z.shiftl b3 24) (Z.lor (Z.shiftl b2 16) (Z.lor (Z.shiftl b1 8) b0)).

Fixpoint words_of_bytes (fuel : nat) (bs : list byte) : list word :=
  match fuel, bs with
  | S fuel', b3 :: b2 :: b1 :: b0 :: rest =>
      word_of_bytes b3 b2 b1 b0 :: words_of_bytes fuel' rest
  | _, _ => []
  end.

(** Message padding: a 1 bit, zeros up to 56 mod 64, the bit length on 8 bytes. *)
Definition pad (msg : list byte) : list byte :=
  let len := Z.of_nat (List.length msg) in
  let zeros := Z.to_nat ((55 - len) mod 64) in
  msg ++ [128] ++ repeat 0 zeros ++ be_bytes 8 (8 * len).

Definition nthw (ws : list word) (i : nat) : word := nth i ws 0.

(** Message schedule: the 16 words of the block extended to 80.  The list is
    kept newest first, so that word [t-k] is at position [k-1]. *)
Fixpoint extend (n : nat) (rev_ws : list word) : list word :=
  match n with
  | O => rev_ws
  | S n' =>
      let w := rotl32 1 (Z.lxor (Z.lxor (nthw rev_ws 2) (nthw rev_ws 7))
                                (Z.lxor (nthw rev_ws 13) (nthw rev_ws 15))) in
      extend n' (w :: rev_ws)
  end.

Definition schedule (block : list word) : list word :=
  rev (extend 64 (rev block)).

Record hstate := mkH { ha : word; hb : word; hc : word; hd : word; he : word }.

Definition f_k (t : nat) (b c d : word) : word * word :=
  if (t <? 20)%nat then (Z.lor (Z.land b c) (Z.land (not32 b) d), 1518500249)
  else if (t <? 40)%nat then (Z.lxor (Z.lxor b c) d, 1859775393)
  else if (t <? 60)%nat then
    (Z.lor (Z.lor (Z.land b c) (Z.land b d)) (Z.land c d), 2400959708)
  else (Z.lxor (Z.lxor b c) d, 3395469782).

Fixpoint rounds (t : nat) (ws : list word) (s : hstate) : hstate :=
  match ws with
  | [] => s
  | w :: ws' =>
      let '(f, k) := f_k t (hb s) (hc s) (hd s) in
      let tmp := add32 (add32 (add32 (add32 (rotl32 5 (ha s)) f) (he s)) k) w in
      rounds (S t) ws' (mkH tmp (ha s) (rotl32 30 (hb s)) (hc s) (hd s))
  end.

Definition compress (h : hstate) (block : list word) : hstate :=
  let s := rounds 0 (schedule block) h in
  mkH (add32 (ha h) (ha s)) (add32 (hb h) (hb s)) (add32 (hc h) (hc s))
      (add32 (hd h) (hd s)) (add32 (he h) (he s)).

Fixpoint blocks (fuel : nat) (ws : list word) (h : hstate) : hstate :=
  match fuel, ws with
  | S fuel', _ :: _ => blocks fuel' (skipn 16 ws) (compress h (firstn 16 ws))
  | _, _ => h
  end.

Definition h0 : hstate := mkH 1732584193 4023233417 2562383102 271733878 3285377520.

Definition sha1 (msg : list byte) : list byte :=
  let padded := pad msg in
  let ws := words_of_bytes (List.length padded) padded in
  let h := blocks (List.length ws) ws h0 in
  be_bytes 4 (ha h) ++ be_bytes 4 (hb h) ++ be_bytes 4 (hc h)
    ++ be_bytes 4 (hd h) ++ be_bytes 4 (he h).

Definition block_size : nat := 64.

Definition hmac_sha1 (key msg : list byte) : list byte :=
  let k := if (block_size <? List.length key)%nat then sha1 key else key in
  let k := k ++ repeat 0 (block_size - List.length k) in
  sha1 (map (Z.lxor 92) k ++ sha1 (map (Z.lxor 54) k ++ msg)).

Definition hex_digit (n : Z) : ascii :=
  if n <? 10 then ascii_of_N (Z.to_N (48 + n)) else ascii_of_N (Z.to_N (87 + n)).

Fixpoint hex (bs : list byte) : string :=
  match bs with
  | [] => EmptyString
  | b :: bs' => String (hex_digit (Z.shiftr b 4)) (String (hex_digit (Z.land b 15)) (hex bs'))
  end.

(** [createHmac('sha1', key).update(msg).digest('hex')] on two strings. *)
Definition hmac_sha1_hex (key msg : string) : string :=
  hex (hmac_sha1 (bytes_of_string key) (bytes_of_string msg)).

Definition sha1_hex (msg : string) : string := hex (sha1 (bytes_of_string msg)).

End Crypto.

(** ** JavaScript values *)

#[warnings="-register-all"]
Inductive value : Type :=
| VUndefined
| VNull
| VBool (b : bool)
| VNum (n : Z)
| VStr (s : string)
| VObj (fields : list (string * value))
| VError (name message : string).

(** An object literal: its properties in insertion order. *)
Definition obj := list (string * value).

Fixpoint assoc (k : string) (o : obj) : option value :=
  match o with
  | [] => None
  | (k', v) :: o' => if String.eqb k k' then Some v else assoc k o'
  end.

(** [o.k]: the property, or [undefined] when the object has none. *)
Definition field (o : obj) (k : string) : value :=
  match assoc k o with Some v => v | None => VUndefined end.

Definition has_key (k : string) (o : obj) : bool :=
  match assoc k o with Some _ => true | None => false end.

(** [o.k = v]: overwrite the property where it stands, or add it last. *)
Fixpoint set_field (k : string) (v : value) (o : obj) : obj :=
  match o with
  | [] => [(k, v)]
  | (k', v') :: o' =>
      if String.eqb k k' then (k, v) :: o' else (k', v') :: set_field k v o'
  end.

(** ToBoolean. *)
Definition truthy (v : value) : bool :=
  match v with
  | VUndefined | VNull => false
  | VBool b => b
  | VNum n => negb (n =? 0)
  | VStr s => negb (String.eqb s "")
  | VObj _ | VError _ _ => true
  end.

(** ToString, as a template literal applies it. *)
Definition to_string (v : value) : string :=
  match v with
  | VUndefined => "undefined"
  | VNull => "null"
  | VBool true => "true"
  | VBool false => "false"
  | VNum n => NilZero.string_of_int (Z.to_int n)
  | VStr s => s
  | VObj _ => "[object Object]"
  | VError name message => name ++ ": " ++ message
  end.

(** [v === 'lit'] against a string literal. *)
Definition is_string (lit : string) (v : value) : bool :=
  match v with VStr s => String.eqb s lit | _ => false end.

(** [String.prototype.indexOf]: position of the first occurrence, or -1. *)
Definition indexOf (s pat : string) : Z :=
  match String.index 0 pat s with
  | Some n => Z.of_nat n
  | None => -1
  end.

(** [String.prototype.substr(start, length)]: a negative start counts from
    the end, a length that is not positive gives the empty string. *)
Definition substr (s : string) (start len : Z) : string :=
  let size := Z.of_nat (String.length s) in
  let from := if start <? 0 then Z.max (size + start) 0 else Z.min start size in
  if len <=? 0 then "" else String.substring (Z.to_nat from) (Z.to_nat len) s.

Definition type_error (message : string) : value := VError "TypeError" message.

(** ** The transport and the node instance *)

(** The options object handed to [axios]. *)
Record request := mkRequest {
  url : string;
  data : value;
  method : value;
  headers : value
}.

(** How the transport settles one request. *)
Inductive reply :=
| Respond (response : value)   (* the promise fulfils with the response object *)
| Fail (reason : value).       (* the promise rejects *)

Inductive level := Info | Error.

(** A line given to [RED.log]; [inspected] is the argument of
    [util.inspect] when the line ends with one. *)
Record log_entry := mkLog {
  lvl : level;
  text : string;
  inspected : option value
}.

(** The fields of a [FreeboxServerNode], what it has emitted, logged and
    requested so far, the credential store entry of [node.id], and the
    replies the transport is still going to give, in order. *)
Record node := mkNode {
  freebox : obj;
  application : obj;
  session : obj;
  credentials : obj;
  emitted : list string;
  logged : list log_entry;
  stored : option obj;
  requests : list request;
  transport : list reply;
  unhandled : list value
}.

Definition with_freebox (o : obj) (st : node) : node :=
  mkNode o (application st) (session st) (credentials st) (emitted st)
         (logged st) (stored st) (requests st) (transport st) (unhandled st).
Definition with_application (o : obj) (st : node) : node :=
  mkNode (freebox st) o (session st) (credentials st) (emitted st)
         (logged st) (stored st) (requests st) (transport st) (unhandled st).
Definition with_session (o : obj) (st : node) : node :=
  mkNode (freebox st) (application st) o (credentials st) (emitted st)
         (logged st) (stored st) (requests st) (transport st) (unhandled st).
Definition with_credentials (o : obj) (st : node) : node :=
  mkNode (freebox st) (application st) (session st) o (emitted st)
         (logged st) (stored st) (requests st) (transport st) (unhandled st).
Definition with_emitted (l : list string) (st : node) : node :=
  mkNode (freebox st) (application st) (session st) (credentials st) l
         (logged st) (stored st) (requests st) (transport st) (unhandled st).
Definition with_logged (l : list log_entry) (st : node) : node :=
  mkNode (freebox st) (application st) (session st) (credentials st) (emitted st)
         l (stored st) (requests st) (transport st) (unhandled st).
Definition with_stored (s : option obj) (st : node) : node :=
  mkNode (freebox st) (application st) (session st) (credentials st) (emitted st)
         (logged st) s (requests st) (transport st) (unhandled st).
Definition with_requests (l : list request) (st : node) : node :=
  mkNode (freebox st) (application st) (session st) (credentials st) (emitted st)
         (logged st) (stored st) l (transport st) (unhandled st).
Definition with_transport (l : list reply) (st : node) : node :=
  mkNode (freebox st) (application st) (session st) (credentials st) (emitted st)
         (logged st) (stored st) (requests st) l (unhandled st).
Definition with_unhandled (l : list value) (st : node) : node :=
  mkNode (freebox st) (application st) (session st) (credentials st) (emitted st)
         (logged st) (stored st) (requests st) (transport st) l.

(** ** Computations

    A method body is a function of the node.  [Fulfilled a] is a normal
    return of [a], or a returned promise that fulfils with [a]; [Thrown e] an
    exception raised before any promise is returned; [Rejected e] a returned
    promise that rejects; [Unsettled] a returned promise that never settles,
    because the transport never answers; [OutOfFuel] is the model's own, for
    the unbounded polling recursion. *)

Inductive settlement (A : Type) : Type :=
| Fulfilled (a : A)
| Thrown (e : value)
| Rejected (e : value)
| Unsettled
| OutOfFuel.
Arguments Fulfilled {A} a.
Arguments Thrown {A} e.
Arguments Rejected {A} e.
Arguments Unsettled {A}.
Arguments OutOfFuel {A}.

Definition M (A : Type) : Type := node -> settlement A * node.

Definition ret {A} (a : A) : M A := fun st => (Fulfilled a, st).
Definition throw {A} (e : value) : M A := fun st => (Thrown e, st).

(** Statement sequencing. *)
Definition bind {A B} (m : M A) (k : A -> M B) : M B := fun st =>
  match m st with
  | (Fulfilled a, st1) => k a st1
  | (Thrown e, st1) => (Thrown e, st1)
  | (Rejected e, st1) => (Rejected e, st1)
  | (Unsettled, st1) => (Unsettled, st1)
  | (OutOfFuel, st1) => (OutOfFuel, st1)
  end.

Notation "x <- m ;; k" := (bind m (fun x => k))
  (at level 61, m at next level, right associativity).
Notation "m ;; k" := (bind m (fun _ => k))
  (at level 61, right associativity).

(** A callback that throws rejects the promise derived from it. *)
Definition settle_callback {B} (r : settlement B * node) : settlement B * node :=
  match r with
  | (Thrown e, st) => (Rejected e, st)
  | _ => r
  end.

(** [p.then(cb)]. *)
Definition then_ {A B} (p : M A) (cb : A -> M B) : M B := fun st =>
  match p st with
  | (Fulfilled a, st1) => settle_callback (cb a st1)
  | (Thrown e, st1) => (Thrown e, st1)
  | (Rejected e, st1) => (Rejected e, st1)
  | (Unsettled, st1) => (Unsettled, st1)
  | (OutOfFuel, st1) => (OutOfFuel, st1)
  end.

(** [p.catch(handler)]. *)
Definition catch_ {A} (p : M A) (handler : value -> M A) : M A := fun st =>
  match p st with
  | (Rejected e, st1) => settle_callback (handler e st1)
  | r => r
  end.

(** The expression statement [p;]: the promise is dropped.  A rejection
    nobody handles is recorded; the statement itself completes unless the
    call threw before returning its promise. *)
Definition detach {A} (p : M A) : M unit := fun st =>
  match p st with
  | (Thrown e, st1) => (Thrown e, st1)
  | (OutOfFuel, st1) => (OutOfFuel, st1)
  | (Rejected e, st1) => (Fulfilled tt, with_unhandled (unhandled st1 ++ [e]) st1)
  | (_, st1) => (Fulfilled tt, st1)
  end.

Definition get {A} (f : node -> A) : M A := fun st => (Fulfilled (f st), st).
Definition modify (f : node -> node) : M unit := fun st => (Fulfilled tt, f st).

(** [v.k] on an arbitrary value: [None] where the access throws, which it
    does on [undefined] and [null] only.  Of the properties the program
    reads, a boolean, a number or a string has none. *)
Definition read (v : value) (k : string) : option value :=
  match v with
  | VUndefined | VNull => None
  | VObj o => Some (field o k)
  | VError name message =>
      Some (if String.eqb k "name" then VStr name
            else if String.eqb k "message" then VStr message
            else VUndefined)
  | VBool _ | VNum _ | VStr _ => Some VUndefined
  end.

Definition cannot_read (v : value) (k : string) : value :=
  type_error ("Cannot read properties of " ++ to_string v ++ " (reading '" ++ k ++ "')").

Definition cannot_destructure (v : value) (k : string) : value :=
  type_error ("Cannot destructure property '" ++ k ++ "' of '" ++ to_string v
                ++ "' as it is " ++ to_string v ++ ".").

Definition prop (v : value) (k : string) : M value :=
  match read v k with
  | Some x => ret x
  | None => throw (cannot_read v k)
  end.

(** The binding [{ k }] of a parameter pattern against the argument [v]. *)
Definition destructure (v : value) (k : string) : M value :=
  match read v k with
  | Some x => ret x
  | None => throw (cannot_destructure v k)
  end.

(** ['k' in v]. *)
Definition has_in (k : string) (v : value) : M bool :=
  match v with
  | VObj o => ret (has_key k o)
  | VError _ _ => ret (String.eqb k "name" || String.eqb k "message")
  | _ => throw (type_error ("Cannot use 'in' operator to search for '" ++ k
                              ++ "' in " ++ to_string v))
  end.

(** [v.meth] where a method is about to be called: only [undefined] and
    [null] refuse the member access. *)
Definition member (v : value) (meth : string) : M unit :=
  match v with
  | VUndefined | VNull => throw (cannot_read v meth)
  | _ => ret tt
  end.

(** The call [v.meth(...)] of a string method: a value that is no string
    has no such method. *)
Definition string_method (v : value) (meth : string) : M string :=
  match v with
  | VStr s => ret s
  | VUndefined | VNull => throw (cannot_read v meth)
  | _ => throw (type_error (meth ++ " is not a function"))
  end.

(** [crypto.createHmac('sha1', key).update(message).digest('hex')]:
    [createHmac] refuses a key and [update] a message that is no string. *)
Definition createHmac_sha1_hex (key message : value) : M value :=
  match key with
  | VStr k =>
      match message with
      | VStr m => ret (VStr (Crypto.hmac_sha1_hex k m))
      | _ => throw (type_error "The data argument must be of type string")
      end
  | _ => throw (type_error "The key argument must be of type string")
  end.

Definition emit (event : string) : M unit :=
  modify (fun st => with_emitted (emitted st ++ [event]) st).

Definition log_info (line : string) : M unit :=
  modify (fun st => with_logged (logged st ++ [mkLog Info line None]) st).

Definition log_error (line : string) (v : option value) : M unit :=
  modify (fun st => with_logged (logged st ++ [mkLog Error line v]) st).

(** [axios(options)]: the request goes out and the promise settles as the
    next reply of the transport says; with no reply left it never does. *)
Definition axios (options : request) : M value := fun st =>
  let st1 := with_requests (requests st ++ [options]) st in
  match transport st with
  | [] => (Unsettled, st1)
  | Respond response :: rest => (Fulfilled response, with_transport rest st1)
  | Fail reason :: rest => (Rejected reason, with_transport rest st1)
  end.

(** ** The class [FreeboxServerNode] *)

Module APPLICATION.
Definition appId : string := "node-red-contrib-freebox".
Definition appName : string := "node-red Freebox API".
Definition appVersion : string := "0.0.1".
Definition deviceName : string := "Node-red".
End APPLICATION.

(** The callback of the error handler of [_internalApiCall]. *)
Definition internalApiCall_onRejected (response : value) : M value :=
  config <- prop response "config" ;;
  meth <- prop config "method" ;;
  config' <- prop response "config" ;;
  u <- prop config' "url" ;;
  log_error (to_string meth ++ " " ++ to_string u ++ " error: ") (Some response) ;;
  ret response.

(** The callback that unwraps the envelope of a response. *)
Definition internalApiCall_onFulfilled (response : value) : M value :=
  d <- destructure response "data" ;;
  prop d "result".

(** The options object [_internalApiCall] builds on the node [st]. *)
Definition api_request (st : node) (path : string) (body hdrs : value) : request :=
  mkRequest (to_string (field (freebox st) "baseUrl") ++ path) body
            (VStr (if truthy body then "POST" else "GET")) hdrs.

(** [_internalApiCall(url, data = undefined, headers = {})]. *)
Definition _internalApiCall (path : string) (body : value) (hdrs : value) : M value :=
  options <- get (fun st => api_request st path body hdrs) ;;
  catch_ (then_ (axios options) internalApiCall_onFulfilled)
         internalApiCall_onRejected.

Definition authorize_data : value :=
  VObj [("app_id", VStr APPLICATION.appId);
        ("app_name", VStr APPLICATION.appName);
        ("app_version", VStr APPLICATION.appVersion);
        ("device_name", VStr APPLICATION.deviceName)].

(** The callback of [registerApplication] on the answer to a poll of the
    authorization status; [again] is the recursive call
    [this.registerApplication()]. *)
Definition registerApplication_onStatus (again : M value) (result : value) : M value :=
  status <- destructure result "status" ;;
  modify (fun st => with_application (set_field "status" status (application st)) st) ;;
  if is_string "pending" status then
    log_info "The app is not accepted. You must register it." ;;
    emit "application.pending" ;;
    detach again ;;
    ret VUndefined
  else if is_string "granted" status then
    log_info "Application registered" ;;
    emit "application.granted" ;;
    modify (fun st =>
      with_credentials [("token", field (application st) "token");
                        ("trackId", field (application st) "trackId")] st) ;;
    modify (fun st => with_stored (Some (credentials st)) st) ;;
    ret VUndefined
  else if is_string "timeout" status then
    log_info "Application not registered in time. Sending another request..." ;;
    emit "application.timeout" ;;
    modify (with_stored None) ;;
    modify (with_credentials []) ;;
    modify (with_application []) ;;
    modify (with_session []) ;;
    detach again ;;
    ret VUndefined
  else
    log_error ("Register application failed. Status is " ++ to_string status
                 ++ ". Deleting credentials") None ;;
    emit "application.unknown" ;;
    modify (with_stored None) ;;
    modify (with_credentials []) ;;
    modify (with_application []) ;;
    modify (with_session []) ;;
    ret VUndefined.

(** The callback of [registerApplication] on the answer to the request
    for authorization. *)
Definition registerApplication_onAuthorized (again : M value) (result : value) : M value :=
  app_token <- destructure result "app_token" ;;
  track_id <- destructure result "track_id" ;;
  log_info ("Register app token " ++ to_string app_token) ;;
  modify (fun st => with_application (set_field "token" app_token (application st)) st) ;;
  modify (fun st => with_application (set_field "trackId" track_id (application st)) st) ;;
  modify (fun st => with_application (set_field "status" (VStr "") (application st)) st) ;;
  again.

(** The path that polls the authorization status of a track id. *)
Definition poll_path (trackId : value) : string :=
  "/login/authorize/" ++ to_string trackId.

(** [registerApplication()].  Each recursive call of the source takes one
    unit of fuel. *)
Fixpoint registerApplication (fuel : nat) : M value :=
  match fuel with
  | O => fun st => (OutOfFuel, st)
  | S fuel' =>
      app <- get application ;;
      if truthy (field app "trackId") then
        then_ (_internalApiCall (poll_path (field app "trackId")) VUndefined (VObj []))
              (registerApplication_onStatus (registerApplication fuel'))
      else
        then_ (_internalApiCall "/login/authorize" authorize_data (VObj []))
              (registerApplication_onAuthorized (registerApplication fuel'))
  end.

(** [refreshSession()]. *)
Definition refreshSession : M value :=
  then_
    (_internalApiCall "/login" VUndefined (VObj []))
    (fun result =>
       logged_in <- destructure result "logged_in" ;;
       challenge <- destructure result "challenge" ;;
       if negb (truthy logged_in) then
         app <- get application ;;
         password <- createHmac_sha1_hex (field app "token") challenge ;;
         let body := VObj [("app_id", VStr APPLICATION.appId);
                           ("app_version", VStr APPLICATION.appVersion);
                           ("password", password)] in
         then_
           (_internalApiCall "/login/session" body (VObj []))
           (fun opened =>
              session_token <- destructure opened "session_token" ;;
              permissions <- destructure opened "permissions" ;;
              log_info "Session opened" ;;
              emit "session.opened" ;;
              modify (with_session [("token", session_token);
                                    ("permissions", permissions)]) ;;
              ret VUndefined)
       else ret VUndefined).

(** [apiCall(url, data)]. *)
Definition apiCall (path : string) (body : value) : M value :=
  log_info ((if truthy body then "POST" else "GET") ++ " " ++ path) ;;
  then_ refreshSession
        (fun _ =>
           s <- get session ;;
           _internalApiCall path body (VObj [("X-Fbx-App-Auth", field s "token")])).

(** [logout()], given what its member expression [this.call] stands for. *)
Definition logout_with (call : string -> value -> M value) : M unit :=
  detach
    (then_ (call "/login/logout" (VObj []))
           (fun _ =>
              log_info "Session closed" ;;
              emit "session.closed" ;;
              ret VUndefined)).

(** [this.call] in the class as it is written: the class body declares
    [init], [registerApplication], [refreshSession], [logout], [apiCall],
    [_internalApiCall] and the getter [statusChanged], and the node base
    class of Node-RED has no member of that name either, so the member
    expression is [undefined] and applying it throws. *)
Definition this_call (path : string) (body : value) : M value :=
  throw (type_error "this.call is not a function").

(** [logout()]. *)
Definition logout : M unit := logout_with this_call.

(** The version string before its first dot, as [init] takes it. *)
Definition major_version (api_version : string) : string :=
  substr api_version 0 (indexOf api_version ".").

(** The callback of the error handler of [init]. *)
Definition init_onRejected (response : value) : M value :=
  config <- prop response "config" ;;
  (if truthy config then
     u <- prop config "url" ;;
     log_error ("Freebox " ++ to_string u ++ " error: ") (Some response)
   else
     log_error "Freebox error: " (Some response)) ;;
  emit "application.error" ;;
  ret VUndefined.

(** The callback of [init] on the answer of the discovery request. *)
Definition init_onFulfilled (fuel : nat) (freeboxUrl : string) (response : value)
  : M value :=
  d <- destructure response "data" ;;
  known <- has_in "uid" d ;;
  (if negb known then throw (VStr "No uid in response") else ret tt) ;;
  uid <- prop d "uid" ;;
  device_name <- prop d "device_name" ;;
  device_type <- prop d "device_type" ;;
  api_base_url <- prop d "api_base_url" ;;
  api_version <- prop d "api_version" ;;
  member api_version "substr" ;;
  api_version' <- prop d "api_version" ;;
  v' <- string_method api_version' "indexOf" ;;
  v <- string_method api_version "substr" ;;
  modify (with_freebox
            [("uid", uid);
             ("deviceName", device_name);
             ("deviceType", device_type);
             ("baseUrl", VStr (freeboxUrl ++ to_string api_base_url
                                 ++ "v" ++ substr v 0 (indexOf v' ".")))]) ;;
  app <- get application ;;
  (if negb (is_string "granted" (field app "status"))
   then detach (registerApplication fuel)
   else ret tt) ;;
  ret VUndefined.

(** The options of the discovery request: a URL and nothing else. *)
Definition discovery_request (freeboxUrl : string) : request :=
  mkRequest (freeboxUrl ++ "/api_version") VUndefined VUndefined VUndefined.

Definition freeboxUrl_of (config : obj) : string :=
  "http://" ++ to_string (field config "host") ++ ":" ++ to_string (field config "port").

(** [init(config)]. *)
Definition init (fuel : nat) (config : obj) : M unit :=
  let freeboxUrl := freeboxUrl_of config in
  log_info ("Connecting to freebox at " ++ freeboxUrl) ;;
  detach
    (catch_ (then_ (axios (discovery_request freeboxUrl))
                   (init_onFulfilled fuel freeboxUrl))
            init_onRejected).

(** [new FreeboxServerNode(config)], with the credentials Node-RED holds for
    the node and the replies the transport is going to give. *)
Definition constructor (fuel : nat) (config creds : obj) (replies : list reply)
  : settlement unit * node :=
  let or_empty v := if truthy v then v else VStr "" in
  init fuel config
    (mkNode [("uid", VStr ""); ("deviceName", VStr ""); ("deviceType", VStr "");
             ("baseUrl", VStr "")]
            [("token", or_empty (field creds "token"));
             ("trackId", or_empty (field creds "trackId"));
             ("status", VStr "")]
            [("token", VStr ""); ("permissions", VObj [])]
            creds [] [] (Some creds) [] replies []).

(** ** Vocabulary of the statements *)

(** The node once [req] has gone out and the transport has answered it. *)
Definition sent (req : request) (rest : list reply) (st : node) : node :=
  with_transport rest (with_requests (requests st ++ [req]) st).

(** [data.result] of a response, when reading it does not throw. *)
Definition payload (response : value) : option value :=
  match read response "data" with
  | Some d => read d "result"
  | None => None
  end.

(** A transport or HTTP failure as [axios] reports it: an error that carries
    the request configuration, with the method [m] and URL [u] in it. *)
Definition transport_failure (e m u : value) : Prop :=
  exists config,
    read e "config" = Some config /\ read config "method" = Some m
    /\ read config "url" = Some u.

(** A rejection value the property [config] of which is missing. *)
Definition lacks_config (e : value) : bool :=
  match read e "config" with
  | Some VUndefined | None => true
  | Some _ => false
  end.

(** What dereferencing [response.config.method] raises on such a value. *)
Definition secondary_error (e : value) : value :=
  match read e "config" with
  | None => cannot_read e "config"
  | Some config => cannot_read config "method"
  end.

Definition log_line (l : level) (line : string) (v : option value) (st : node) : node :=
  with_logged (logged st ++ [mkLog l line v]) st.

Definition emitting (event : string) (st : node) : node :=
  with_emitted (emitted st ++ [event]) st.

(** The header of a signed call. *)
Definition has_auth_header (req : request) : bool :=
  match headers req with
  | VObj o => has_key "X-Fbx-App-Auth" o
  | _ => false
  end.

(** A computation keeps the relation [R] between the node it starts from
    and the node it leaves. *)
Definition keeps (R : node -> node -> Prop) {A} (m : M A) : Prop :=
  forall st, R st (snd (m st)).

(** No request goes out. *)
Definition quiet (st st' : node) : Prop :=
  requests st' = requests st /\ transport st' = transport st /\ freebox st' = freebox st.

(** Requests go out, and all of them satisfy [P]. *)
Definition requesting (P : request -> Prop) (st st' : node) : Prop :=
  exists l, requests st' = (requests st ++ l)%list /\ Forall P l.

(** The device identity stays. *)
Definition same_freebox (st st' : node) : Prop := freebox st' = freebox st.

(** A request without the session header. *)
Definition unsigned (req : request) : Prop := has_auth_header req = false.

(** A version string without a dot. *)
Fixpoint dotless (s : string) : bool :=
  match s with
  | EmptyString => true
  | String c s' => negb (Ascii.eqb c ".") && dotless s'
  end.

(** ** Sample data *)

Definition envelope (result : value) : value :=
  VObj [("data", VObj [("success", VBool true); ("result", result)]);
        ("status", VNum 200)].

Definition network_error (meth path : string) : value :=
  VObj [("message", VStr "connect ECONNREFUSED");
        ("name", VStr "Error");
        ("config", VObj [("url", VStr path); ("method", VStr meth)])].

Definition sample_node (replies : list reply) : node :=
  mkNode [("uid", VStr "abc"); ("deviceName", VStr "Freebox Server");
          ("deviceType", VStr "FreeboxServer"); ("baseUrl", VStr "http://192.168.1.254:80/api/v8")]
         [("token", VStr "app-token"); ("trackId", VNum 42); ("status", VStr "")]
         [("token", VStr "old-session"); ("permissions", VObj [("settings", VBool true)])]
         [] [] [] None [] replies [].

(** The body of the open-session call for a given password. *)
Definition session_data (password : value) : value :=
  VObj [("app_id", VStr APPLICATION.appId);
        ("app_version", VStr APPLICATION.appVersion);
        ("password", password)].

Definition login_status (logged_in : bool) (challenge : string) : value :=
  envelope (VObj [("logged_in", VBool logged_in); ("challenge", VStr challenge)]).

(** The line [_internalApiCall] logs for a failure of method [m] on URL [u]. *)
Definition failure_line (m u : value) : string :=
  to_string m ++ " " ++ to_string u ++ " error: ".

(** The signed request of [apiCall] on the node [st]. *)
Definition signed_request (st : node) (path : string) (body : value) : request :=
  api_request st path body (VObj [("X-Fbx-App-Auth", field (session st) "token")]).

(** A node that is logged in and whose signed call the transport fails. *)
Definition failing_call_node : node :=
  sample_node [Respond (login_status true "");
               Fail (network_error "get" "http://192.168.1.254:80/api/v8/connection")].

(** A node that has to log in and whose open-session call the transport fails. *)
Definition failing_login_node : node :=
  sample_node [Respond (login_status false "challenge");
               Fail (network_error "post" "http://192.168.1.254:80/api/v8/login/session")].

(** The poll of the authorization status for the track id the node holds. *)
Definition poll_request (st : node) : request :=
  api_request st (poll_path (field (application st) "trackId")) VUndefined (VObj []).

(** The request for a new authorization. *)
Definition authorize_request (st : node) : request :=
  api_request st "/login/authorize" authorize_data (VObj []).

(** A reply whose envelope carries the authorization status [status]. *)
Definition status_reply (status : string) (r : reply) : Prop :=
  exists response result,
    r = Respond response /\ payload response = Some result
    /\ read result "status" = Some (VStr status).

(** What the callback of a poll settles with once the recursive call it
    dropped has run: the callback returns [undefined] whatever becomes of
    that call, and a rejection of it is left unhandled. *)
Definition resume (r : settlement value * node) : settlement value * node :=
  match r with
  | (Thrown e, st) => (Rejected e, st)
  | (OutOfFuel, st) => (OutOfFuel, st)
  | (Rejected e, st) => (Fulfilled VUndefined, with_unhandled (unhandled st ++ [e]) st)
  | (Fulfilled _, st) | (Unsettled, st) => (Fulfilled VUndefined, st)
  end.

(** The node after a poll that was answered [pending], the recursive call
    not yet made; [rest] is what the transport has left to say. *)
Definition after_pending (rest : list reply) (st : node) : node :=
  emitting "application.pending"
    (log_line Info "The app is not accepted. You must register it." None
       (with_application (set_field "status" (VStr "pending") (application st))
          (sent (poll_request st) rest st))).

(** The node after [n] polls that were all answered [pending]. *)
Fixpoint after_pendings (n : nat) (st : node) : node :=
  match n with
  | O => st
  | S n' => after_pendings n' (after_pending (tl (transport st)) st)
  end.

(** The node after a poll that was answered [timeout], the recursive call
    not yet made. *)
Definition after_timeout (rest : list reply) (st : node) : node :=
  with_session []
    (with_application []
       (with_credentials []
          (with_stored None
             (emitting "application.timeout"
                (log_line Info
                   "Application not registered in time. Sending another request..." None
                   (with_application (set_field "status" (VStr "timeout") (application st))
                      (sent (poll_request st) rest st))))))).

(** The node after an authorization request that was answered with
    [app_token] and [track_id], the recursive call not yet made. *)
Definition after_authorize (app_token track_id : value) (rest : list reply) (st : node)
  : node :=
  with_application
    (set_field "status" (VStr "")
       (set_field "trackId" track_id (set_field "token" app_token (application st))))
    (log_line Info ("Register app token " ++ to_string app_token) None
       (sent (authorize_request st) rest st)).

(** What [_internalApiCall] fulfils with when the transport gives the
    reply [r]: the payload of a response, or the error object of a failure
    whose configuration the handler can read. *)
Definition fulfilment (r : reply) : option value :=
  match r with
  | Respond response => payload response
  | Fail e =>
      match read e "config" with
      | Some config =>
          match read config "method", read config "url" with
          | Some _, Some _ => Some e
          | _, _ => None
          end
      | None => None
      end
  end.

(** The rendering of the track id the node takes from the reply [r] to
    an authorization request, when it takes one that it will poll. *)
Definition offered_track (r : reply) : option string :=
  match fulfilment r with
  | Some result =>
      match read result "track_id" with
      | Some k => if truthy k then Some (to_string k) else None
      | None => None
      end
  | None => None
  end.

(** The request does not poll the track id rendered [k] on the device [fb]. *)
Definition avoids (fb : obj) (k : string) (req : request) : Prop :=
  url req <> to_string (field fb "baseUrl") ++ "/login/authorize/" ++ k.

(** The node of device [fb] holds no track id rendered [k] that it would
    poll, and the transport is not going to hand one out. *)
Definition rid_of (fb : obj) (k : string) (st : node) : Prop :=
  freebox st = fb
  /\ (truthy (field (application st) "trackId") = true ->
      to_string (field (application st) "trackId") <> k)
  /\ Forall (fun r => offered_track r <> Some k) (transport st).

(** The answer of the authorization-status endpoint with a given status. *)
Definition status_response (status : string) : reply :=
  Respond (envelope (VObj [("status", VStr status)])).

(** The answer of the authorization endpoint. *)
Definition authorize_response (app_token : string) (track_id : Z) : reply :=
  Respond (envelope (VObj [("app_token", VStr app_token); ("track_id", VNum track_id)])).

(** A registration that times out once: the device then hands out the
    track id 43 and leaves its status pending. *)
Definition timeout_node : node :=
  sample_node [status_response "timeout"; authorize_response "fresh-token" 43;
               status_response "pending"].

(** The answer of the discovery endpoint in the scenario of the specification. *)
Definition discovery_response : value :=
  VObj [("data", VObj [("uid", VStr "abc"); ("api_base_url", VStr "/api/");
                       ("api_version", VStr "8.0")]);
        ("status", VNum 200)].

Definition discovery_config : obj :=
  [("host", VStr "192.168.1.254"); ("port", VNum 80)].

(** The node as the constructor leaves it before [init] runs, with no
    credentials stored. *)
Definition fresh_node (replies : list reply) : node :=
  mkNode [("uid", VStr ""); ("deviceName", VStr ""); ("deviceType", VStr "");
          ("baseUrl", VStr "")]
         [("token", VStr ""); ("trackId", VStr ""); ("status", VStr "")]
         [("token", VStr ""); ("permissions", VObj [])]
         [] [] [] None [] replies [].

(** ** The class [FreeboxNode] and the two operation nodes *)

Module FreeboxNode.

(** The second argument of the constructor. *)
Record apiCallOptions := mkOptions {
  url : string;
  withPayload : bool
}.

(** What the flow sees of an operation node: the status it shows last,
    the messages it has sent, how often it has called [done], and the lines
    it has logged itself. *)
Record operation := mkOperation {
  status : option value;
  sends : list value;
  dones : nat;
  lines : list log_entry
}.

Definition shape (fill shape text : string) : value :=
  VObj [("fill", VStr fill); ("shape", VStr shape); ("text", VStr text)].

(** The status a listener on [serverNode.statusChanged] sets for an event,
    when the constructor registers one for it. *)
Definition listener (event : string) : option value :=
  if String.eqb event "application.granted" then Some (shape "green" "dot" "connected")
  else if String.eqb event "application.pending"
       then Some (shape "yellow" "dot" "server validation pending")
  else if String.eqb event "application.timeout"
       then Some (shape "orange" "dot" "server validation timeout")
  else if String.eqb event "application.error"
       then Some (shape "red" "dot" "invalid configuration")
  else if String.eqb event "disconnected" then Some (shape "red" "ring" "disconnected")
  else None.

(** The operation node once the server node has emitted [events]. *)
Definition notify (events : list string) (op : operation) : operation :=
  fold_left
    (fun op event =>
       match listener event with
       | Some s => mkOperation (Some s) (sends op) (dones op) (lines op)
       | None => op
       end)
    events op.

(** The part of the constructor before the [input] listener: without a
    server node the node logs an error and shows that it is not connected;
    with one it registers its listeners. *)
Definition constructor (serverNode : option node) : operation :=
  match serverNode with
  | None =>
      mkOperation (Some (shape "red" "ring" "not connected")) [] 0
                  [mkLog Error "Server not configured" None]
  | Some _ => mkOperation None [] 0 []
  end.

(** The callback of the call: the payload goes out, the status shows the
    date, the message is done. *)
Definition called (prettyDate : string) (payload : value) (op : operation) : operation :=
  mkOperation (Some (shape "green" "dot" ("called at: " ++ prettyDate)))
              (sends op ++ [VObj [("payload", payload)]])
              (S (dones op)) (lines op).

(** The listener of [input].  [serverNode.freebox] is an object from the
    constructor of the server node on, so the guard is on the server node
    alone.  [prettyDate] is what the getter of that name gives when the
    call comes back.  The promise of the call is dropped. *)
Definition input (options : apiCallOptions) (prettyDate : string) (msg : value)
                 (serverNode : option node) (op : operation)
  : settlement unit * option node * operation :=
  match serverNode with
  | None =>
      (Fulfilled tt, None,
       mkOperation (status op) (sends op) (S (dones op))
                   (lines op ++ [mkLog Info "Freebox server is not configured" None]))
  | Some st =>
      match (if withPayload options then prop msg "payload" else ret VUndefined) st with
      | (Fulfilled body, st0) =>
          match apiCall (url options) body st0 with
          | (Fulfilled payload, st1) => (Fulfilled tt, Some st1, called prettyDate payload op)
          | (Rejected e, st1) =>
              (Fulfilled tt, Some (with_unhandled (unhandled st1 ++ [e]) st1), op)
          | (Unsettled, st1) => (Fulfilled tt, Some st1, op)
          | (Thrown e, st1) => (Thrown e, Some st1, op)
          | (OutOfFuel, st1) => (OutOfFuel, Some st1, op)
          end
      | (Thrown e, st0) | (Rejected e, st0) => (Thrown e, Some st0, op)
      | (Unsettled, st0) => (Unsettled, Some st0, op)
      | (OutOfFuel, st0) => (OutOfFuel, Some st0, op)
      end
  end.

(** [FreeboxConnectedDevicesNode] and [FreeboxConnectionStatusNode]. *)
Definition FreeboxConnectedDevicesNode : apiCallOptions := mkOptions "/lan/browser/pub" false.
Definition FreeboxConnectionStatusNode : apiCallOptions := mkOptions "/connection" false.

End FreeboxNode.

(** ** Vocabulary of the further statements *)


(** Events are emitted, and all of them satisfy [E]. *)
Definition emitting_only (E : string -> Prop) (st st' : node) : Prop :=
  exists l, emitted st' = (emitted st ++ l)%list /\ Forall E l.

(** The lines the node has logged once [_internalApiCall] has dealt with
    the reply [r]. *)
Definition logged_after (r : reply) (st : node) : list log_entry :=
  match r with
  | Respond _ => logged st
  | Fail e =>
      match read e "config" with
      | Some config =>
          match read config "method", read config "url" with
          | Some m, Some u => (logged st ++ [mkLog Error (failure_line m u) (Some e)])%list
          | _, _ => logged st
          end
      | None => logged st
      end
  end.

(** The node after an internal call of [req] that the reply [r] fulfilled. *)
Definition answered (req : request) (r : reply) (rest : list reply) (st : node) : node :=
  with_logged (logged_after r st) (sent req rest st).

(** A status that is none of [pending], [granted] and [timeout]. *)
Definition unknown_status (status : value) : bool :=
  negb (is_string "pending" status) && negb (is_string "granted" status)
  && negb (is_string "timeout" status).

(** The node after a poll that was answered [granted]. *)
Definition after_granted (r : reply) (rest : list reply) (st : node) : node :=
  let creds := [("token", field (application st) "token");
                ("trackId", field (application st) "trackId")] in
  with_stored (Some creds)
    (with_credentials creds
       (emitting "application.granted"
          (log_line Info "Application registered" None
             (with_application (set_field "status" (VStr "granted") (application st))
                (answered (poll_request st) r rest st))))).

(** The node after a poll whose answer carried the unknown status [status]. *)
Definition after_unknown (status : value) (r : reply) (rest : list reply) (st : node)
  : node :=
  with_session []
    (with_application []
       (with_credentials []
          (with_stored None
             (emitting "application.unknown"
                (log_line Error
                   ("Register application failed. Status is " ++ to_string status
                      ++ ". Deleting credentials") None
                   (with_application (set_field "status" status (application st))
                      (answered (poll_request st) r rest st))))))).

(** The node after a request for authorization that the transport
    failed with the error [e], which has no token to give. *)
Definition after_refused (r : reply) (rest : list reply) (st : node) : node :=
  with_application
    (set_field "status" (VStr "")
       (set_field "trackId" VUndefined (set_field "token" VUndefined (application st))))
    (log_line Info "Register app token undefined" None
       (answered (authorize_request st) r rest st)).

(** The node after [n] such requests in a row. *)
Fixpoint after_refusals (n : nat) (st : node) : node :=
  match n with
  | O => st
  | S n' =>
      match transport st with
      | r :: rest => after_refusals n' (after_refused r rest st)
      | [] => st
      end
  end.

(** A transport failure that carries no answer of the device: the error
    has its request configuration and none of the properties a callback
    looks for. *)
Definition bare_failure (r : reply) : Prop :=
  exists e m u,
    r = Fail e /\ transport_failure e m u
    /\ read e "status" = Some VUndefined
    /\ read e "app_token" = Some VUndefined
    /\ read e "track_id" = Some VUndefined
    /\ read e "logged_in" = Some VUndefined
    /\ read e "challenge" = Some VUndefined.

(** The node after an open-session call that was answered. *)
Definition after_opened (session_token permissions : value) (st : node) : node :=
  with_session [("token", session_token); ("permissions", permissions)]
    (emitting "session.opened" (log_line Info "Session opened" None st)).

(** The node when [apiCall] has logged its line. *)
Definition calling (path : string) (body : value) (st : node) : node :=
  log_line Info ((if truthy body then "POST" else "GET") ++ " " ++ path) None st.

(** The line the error handler of [init] logs for a rejection value whose
    property [config] is [c]: with the [url] of a truthy [c] (reading a
    property of a truthy value does not throw), without it otherwise. *)
Definition discovery_failure_line (c : value) : string :=
  if truthy c then
    "Freebox "
      ++ match read c "url" with Some u => to_string u | None => "" end
      ++ " error: "
  else "Freebox error: ".

(** The node when [init] has logged its line and the discovery request
    has been answered. *)
Definition discovered (config : obj) (rest : list reply) (st : node) : node :=
  sent (discovery_request (freeboxUrl_of config)) rest
       (log_line Info ("Connecting to freebox at " ++ freeboxUrl_of config) None st).

(** The device identity [init] derives from the data [d] of a discovery
    answer whose version is the string [v]. *)
Definition identity (freeboxUrl : string) (d : obj) (v : string) : obj :=
  [("uid", field d "uid");
   ("deviceName", field d "device_name");
   ("deviceType", field d "device_type");
   ("baseUrl", VStr (freeboxUrl ++ to_string (field d "api_base_url")
                       ++ "v" ++ major_version v))].

(** The last statements of the discovery callback. *)
Definition init_registers (fuel : nat) : M value :=
  app <- get application ;;
  (if negb (is_string "granted" (field app "status"))
   then detach (registerApplication fuel)
   else ret tt) ;;
  ret VUndefined.

(** A value that is no string. *)
Definition not_a_string (v : value) : Prop :=
  match v with VStr _ => False | _ => True end.

(** ** Further sample data *)

Definition refused : reply :=
  Fail (network_error "POST" "http://192.168.1.254:80/api/v8/login/authorize").

Definition session_response (session_token : string) : reply :=
  Respond (envelope (VObj [("session_token", VStr session_token);
                           ("permissions", VObj [("settings", VBool false)])])).

(* ================================================================= *)
(** * Properties *)

(** ** HMAC-SHA1 on known vectors *)

Example sha1_abc :
  Crypto.sha1_hex "abc" = "a9993e364706816aba3e25717850c26c9cd0d89d".
Proof. vm_compute. reflexivity. Qed.

Example hmac_sha1_fox :
  Crypto.hmac_sha1_hex "key" "The quick brown fox jumps over the lazy dog"
  = "de7c9b85b8b78aa6bc8a7a36f70a90701c9db4d9".
Proof. vm_compute. reflexivity. Qed.

Example hmac_sha1_empty :
  Crypto.hmac_sha1_hex "" "" = "fbdb1d1b18aa6c08324b7d64b71fb76370690e1d".
Proof. vm_compute. reflexivity. Qed.

(** ** [_internalApiCall] *)

Lemma internalApiCall_respond path body hdrs st response rest result :
  transport st = Respond response :: rest ->
  payload response = Some result ->
  _internalApiCall path body hdrs st
  = (Fulfilled result, sent (api_request st path body hdrs) rest st).
Proof.
  intros Ht Hp. unfold payload in Hp.
  destruct (read response "data") as [d|] eqn:Hd; [|discriminate].
  unfold _internalApiCall, internalApiCall_onFulfilled, bind, get, catch_, then_, axios.
  rewrite Ht. cbn -[read]. unfold destructure. rewrite Hd. cbn -[read].
  unfold prop. rewrite Hp. reflexivity.
Qed.

Lemma internalApiCall_fail path body hdrs st e m u rest :
  transport st = Fail e :: rest ->
  transport_failure e m u ->
  _internalApiCall path body hdrs st
  = (Fulfilled e,
     log_line Error (to_string m ++ " " ++ to_string u ++ " error: ") (Some e)
              (sent (api_request st path body hdrs) rest st)).
Proof.
  intros Ht (config & Hc & Hm & Hu).
  unfold _internalApiCall, bind, get, catch_, then_, axios. rewrite Ht.
  cbn -[read]. unfold internalApiCall_onRejected, bind, prop.
  rewrite Hc. cbn -[read]. rewrite Hm. cbn -[read]. rewrite Hu. reflexivity.
Qed.

Lemma internalApiCall_unsettled path body hdrs st :
  transport st = [] ->
  _internalApiCall path body hdrs st
  = (Unsettled, with_requests (requests st ++ [api_request st path body hdrs]) st).
Proof.
  intros Ht. unfold _internalApiCall, bind, get, catch_, then_, axios.
  rewrite Ht. reflexivity.
Qed.

(** ** Frame rules

    What a computation leaves alone is read off its primitives: a relation
    that is a preorder and that every primitive of the computation keeps is
    kept by the whole computation. *)

Section Frame.

Variable R : node -> node -> Prop.
Hypothesis R_refl : forall st, R st st.
Hypothesis R_trans : forall a b c, R a b -> R b c -> R a c.

Lemma keeps_ret {A} (a : A) : keeps R (ret a).
Proof. intros st. apply R_refl. Qed.

Lemma keeps_throw {A} (e : value) : keeps R (@throw A e).
Proof. intros st. apply R_refl. Qed.

Lemma keeps_get {A} (f : node -> A) : keeps R (get f).
Proof. intros st. apply R_refl. Qed.

Lemma keeps_out_of_fuel {A} : keeps R (fun st => (@OutOfFuel A, st)).
Proof. intros st. apply R_refl. Qed.

Lemma keeps_bind {A B} (m : M A) (k : A -> M B) :
  keeps R m -> (forall a, keeps R (k a)) -> keeps R (bind m k).
Proof.
  intros Hm Hk st. unfold bind. specialize (Hm st).
  destruct (m st) as [[a|e|e| |] st1]; cbn in *; auto.
  eapply R_trans; [exact Hm | apply Hk].
Qed.

Lemma keeps_settle_callback {B} (r : settlement B * node) st :
  R st (snd r) -> R st (snd (settle_callback r)).
Proof. destruct r as [[b|e|e| |] st1]; cbn; auto. Qed.

Lemma keeps_then {A B} (p : M A) (cb : A -> M B) :
  keeps R p -> (forall a, keeps R (cb a)) -> keeps R (then_ p cb).
Proof.
  intros Hp Hcb st. unfold then_. specialize (Hp st).
  destruct (p st) as [[a|e|e| |] st1]; cbn in *; auto.
  apply keeps_settle_callback. eapply R_trans; [exact Hp | apply Hcb].
Qed.

Lemma keeps_catch {A} (p : M A) (h : value -> M A) :
  keeps R p -> (forall e, keeps R (h e)) -> keeps R (catch_ p h).
Proof.
  intros Hp Hh st. unfold catch_. specialize (Hp st).
  destruct (p st) as [[a|e|e| |] st1]; cbn in *; auto.
  apply keeps_settle_callback. eapply R_trans; [exact Hp | apply Hh].
Qed.

Lemma keeps_modify (f : node -> node) :
  (forall st, R st (f st)) -> keeps R (modify f).
Proof. intros Hf st. apply Hf. Qed.

Lemma keeps_prop v k : keeps R (prop v k).
Proof. intros st. unfold prop. destruct (read v k); apply R_refl. Qed.

Lemma keeps_destructure v k : keeps R (destructure v k).
Proof. intros st. unfold destructure. destruct (read v k); apply R_refl. Qed.

Lemma keeps_has_in k v : keeps R (has_in k v).
Proof. intros st. destruct v; apply R_refl. Qed.

Lemma keeps_member v k : keeps R (member v k).
Proof. intros st. destruct v; apply R_refl. Qed.

Lemma keeps_string_method v k : keeps R (string_method v k).
Proof. intros st. destruct v; apply R_refl. Qed.

Lemma keeps_createHmac key message : keeps R (createHmac_sha1_hex key message).
Proof. intros st. destruct key; try apply R_refl. destruct message; apply R_refl. Qed.

Hypothesis R_unhandled : forall st l, R st (with_unhandled l st).
Hypothesis R_logged : forall st l, R st (with_logged l st).
Hypothesis R_emitted : forall st l, R st (with_emitted l st).

Lemma keeps_detach {A} (p : M A) : keeps R p -> keeps R (detach p).
Proof.
  intros Hp st. unfold detach. specialize (Hp st).
  destruct (p st) as [[a|e|e| |] st1]; cbn in *; auto.
  eapply R_trans; [exact Hp | apply R_unhandled].
Qed.

Lemma keeps_emit event : keeps R (emit event).
Proof. apply keeps_modify. intros st. apply R_emitted. Qed.

Lemma keeps_log_info line : keeps R (log_info line).
Proof. apply keeps_modify. intros st. apply R_logged. Qed.

Lemma keeps_log_error line v : keeps R (log_error line v).
Proof. apply keeps_modify. intros st. apply R_logged. Qed.

Lemma keeps_internalApiCall_onRejected e : keeps R (internalApiCall_onRejected e).
Proof.
  unfold internalApiCall_onRejected.
  repeat first [ apply keeps_bind; [|intro] | apply keeps_prop
               | apply keeps_log_error | apply keeps_ret ].
Qed.

Lemma keeps_init_onRejected e : keeps R (init_onRejected e).
Proof.
  unfold init_onRejected.
  apply keeps_bind; [apply keeps_prop|intro config].
  apply keeps_bind; [|intro].
  - destruct (truthy config).
    + apply keeps_bind; [apply keeps_prop|intro; apply keeps_log_error].
    + apply keeps_log_error.
  - apply keeps_bind; [apply keeps_emit|intro; apply keeps_ret].
Qed.

(** The requests the computation may send. *)
Variable P : request -> Prop.
Hypothesis R_axios :
  forall st req rest, P req -> R st (with_transport rest (with_requests (requests st ++ [req]) st)).
Hypothesis R_pending :
  forall st req, P req -> R st (with_requests (requests st ++ [req]) st).

Lemma keeps_axios req : P req -> keeps R (axios req).
Proof.
  intros HP st. unfold axios. destruct (transport st) as [|[response|reason] rest]; cbn; auto.
Qed.

Lemma keeps_internalApiCall path body hdrs :
  (forall st, P (api_request st path body hdrs)) ->
  keeps R (_internalApiCall path body hdrs).
Proof.
  intros HP st. unfold _internalApiCall. unfold bind at 1. unfold get.
  apply (keeps_catch
           (then_ (axios (api_request st path body hdrs)) internalApiCall_onFulfilled)
           internalApiCall_onRejected);
    [|apply keeps_internalApiCall_onRejected].
  apply keeps_then; [apply keeps_axios, HP|].
  intros response. unfold internalApiCall_onFulfilled.
  apply keeps_bind; [apply keeps_destructure|intro; apply keeps_prop].
Qed.

Hypothesis R_application : forall st o, R st (with_application o st).
Hypothesis R_session : forall st o, R st (with_session o st).
Hypothesis R_credentials : forall st o, R st (with_credentials o st).
Hypothesis R_stored : forall st o, R st (with_stored o st).
Hypothesis P_unsigned : forall st path body, P (api_request st path body (VObj [])).

Lemma keeps_refreshSession : keeps R refreshSession.
Proof.
  unfold refreshSession.
  apply keeps_then; [apply keeps_internalApiCall; intro; apply P_unsigned|].
  intros result.
  apply keeps_bind; [apply keeps_destructure|intro logged_in].
  apply keeps_bind; [apply keeps_destructure|intro challenge].
  destruct (negb (truthy logged_in)); [|apply keeps_ret].
  apply keeps_bind; [apply keeps_get|intro app].
  apply keeps_bind; [apply keeps_createHmac|intro password].
  apply keeps_then; [apply keeps_internalApiCall; intro; apply P_unsigned|].
  intros opened.
  repeat first [ apply keeps_bind; [|intro] | apply keeps_destructure
               | apply keeps_log_info | apply keeps_emit | apply keeps_ret
               | apply keeps_modify; intro; apply R_session ].
Qed.

Lemma keeps_onStatus again result :
  keeps R again -> keeps R (registerApplication_onStatus again result).
Proof.
  intros IH. unfold registerApplication_onStatus.
  apply keeps_bind; [apply keeps_destructure|intro status].
  apply keeps_bind; [apply keeps_modify; intro; apply R_application|intros _].
  destruct (is_string "pending" status); [|destruct (is_string "granted" status);
    [|destruct (is_string "timeout" status)]];
  repeat first [ apply keeps_bind; [|intro] | apply keeps_log_info
               | apply keeps_log_error | apply keeps_emit | apply keeps_ret
               | apply keeps_detach, IH
               | apply keeps_modify; intro;
                 first [ apply R_session | apply R_application
                       | apply R_credentials | apply R_stored ] ].
Qed.

Lemma keeps_onAuthorized again result :
  keeps R again -> keeps R (registerApplication_onAuthorized again result).
Proof.
  intros IH. unfold registerApplication_onAuthorized.
  repeat first [ apply IH | apply keeps_bind; [|intro] | apply keeps_destructure
               | apply keeps_log_info
               | apply keeps_modify; intro; apply R_application ].
Qed.

Lemma keeps_registerApplication fuel : keeps R (registerApplication fuel).
Proof.
  induction fuel as [|fuel IH]; [apply keeps_out_of_fuel|].
  cbn [registerApplication].
  apply keeps_bind; [apply keeps_get|intro app].
  destruct (truthy (field app "trackId")).
  - apply keeps_then; [apply keeps_internalApiCall; intro; apply P_unsigned|].
    intros result. apply keeps_onStatus, IH.
  - apply keeps_then; [apply keeps_internalApiCall; intro; apply P_unsigned|].
    intros result. apply keeps_onAuthorized, IH.
Qed.

Hypothesis R_freebox : forall st o, R st (with_freebox o st).
Hypothesis P_discovery : forall freeboxUrl, P (discovery_request freeboxUrl).

Lemma keeps_init_onFulfilled fuel freeboxUrl response :
  keeps R (init_onFulfilled fuel freeboxUrl response).
Proof.
  unfold init_onFulfilled.
  apply keeps_bind; [apply keeps_destructure|intro d].
  apply keeps_bind; [apply keeps_has_in|intro known].
  apply keeps_bind; [destruct (negb known); [apply keeps_throw|apply keeps_ret]|intros _].
  repeat (apply keeps_bind; [apply keeps_prop|intro]).
  apply keeps_bind; [apply keeps_member|intros _].
  apply keeps_bind; [apply keeps_prop|intro].
  repeat (apply keeps_bind; [apply keeps_string_method|intro]).
  apply keeps_bind; [apply keeps_modify; intro; apply R_freebox|intros _].
  apply keeps_bind; [apply keeps_get|intro app].
  apply keeps_bind; [|intros _; apply keeps_ret].
  destruct (negb (is_string "granted" (field app "status")));
    [apply keeps_detach, keeps_registerApplication|apply keeps_ret].
Qed.

Lemma keeps_init fuel config : keeps R (init fuel config).
Proof.
  unfold init.
  apply keeps_bind; [apply keeps_log_info|intros _].
  apply keeps_detach, keeps_catch; [|apply keeps_init_onRejected].
  apply keeps_then; [apply keeps_axios, P_discovery|].
  apply keeps_init_onFulfilled.
Qed.

End Frame.

(** ** Two relations the methods keep *)

Lemma quiet_refl st : quiet st st.
Proof. repeat split. Qed.

Lemma quiet_trans a b c : quiet a b -> quiet b c -> quiet a c.
Proof. unfold quiet. intros (H1 & H2 & H3) (H4 & H5 & H6). repeat split; congruence. Qed.

Lemma requesting_refl P st : requesting P st st.
Proof. exists []. split; [symmetry; apply app_nil_r | constructor]. Qed.

Lemma requesting_trans P a b c :
  requesting P a b -> requesting P b c -> requesting P a c.
Proof.
  intros (l1 & H1 & F1) (l2 & H2 & F2).
  exists (l1 ++ l2)%list. split.
  - rewrite H2, H1. symmetry. apply app_assoc.
  - apply Forall_app. split; assumption.
Qed.

Lemma requesting_axios (P : request -> Prop) st req rest :
  P req -> requesting P st (with_transport rest (with_requests (requests st ++ [req]) st)).
Proof. intros HP. exists [req]. split; [reflexivity|]. repeat constructor. exact HP. Qed.

Lemma requesting_pending (P : request -> Prop) st req :
  P req -> requesting P st (with_requests (requests st ++ [req]) st).
Proof. intros HP. exists [req]. split; [reflexivity|]. repeat constructor. exact HP. Qed.

Lemma requesting_same (P : request -> Prop) st st' :
  requests st' = requests st -> requesting P st st'.
Proof.
  intros Hr. exists []. split; [|constructor].
  rewrite Hr. symmetry. apply app_nil_r.
Qed.

Lemma same_freebox_refl st : same_freebox st st.
Proof. reflexivity. Qed.

Lemma same_freebox_trans a b c :
  same_freebox a b -> same_freebox b c -> same_freebox a c.
Proof. unfold same_freebox. congruence. Qed.

Create HintDb frame.

#[local] Hint Resolve quiet_refl quiet_trans requesting_refl requesting_trans
  requesting_axios requesting_pending same_freebox_refl same_freebox_trans : frame.
#[local] Hint Extern 1 (quiet _ _) => (repeat split; reflexivity) : frame.
#[local] Hint Extern 1 (requesting _ _ _) => (apply requesting_same; reflexivity) : frame.
#[local] Hint Extern 1 (same_freebox _ _) => reflexivity : frame.

(** Discharges [keeps R m] for a computation [m] written with the
    primitives above, given the facts about [R] in the hint database. *)
Ltac frame_step :=
  lazymatch goal with
  | |- keeps _ (ret _) => apply keeps_ret
  | |- keeps _ (throw _) => apply keeps_throw
  | |- keeps _ (get _) => apply keeps_get
  | |- keeps _ (prop _ _) => apply keeps_prop
  | |- keeps _ (destructure _ _) => apply keeps_destructure
  | |- keeps _ (has_in _ _) => apply keeps_has_in
  | |- keeps _ (member _ _) => apply keeps_member
  | |- keeps _ (string_method _ _) => apply keeps_string_method
  | |- keeps _ (createHmac_sha1_hex _ _) => apply keeps_createHmac
  | |- keeps _ (emit _) => apply keeps_emit
  | |- keeps _ (log_info _) => apply keeps_log_info
  | |- keeps _ (log_error _ _) => apply keeps_log_error
  | |- keeps _ (modify _) => apply keeps_modify
  | |- keeps _ (bind _ _) => apply keeps_bind
  | |- keeps _ (then_ _ _) => apply keeps_then
  | |- keeps _ (catch_ _ _) => apply keeps_catch
  | |- keeps _ (detach _) => apply keeps_detach
  | |- keeps _ (internalApiCall_onRejected _) => apply keeps_internalApiCall_onRejected
  | |- keeps _ (init_onRejected _) => apply keeps_init_onRejected
  | |- keeps _ (if ?b then _ else _) => destruct b
  | |- forall _, keeps _ _ => intro
  | |- _ => solve [eauto with frame]
  end.

Ltac frame := cbv beta; repeat (frame_step; cbv beta).



Lemma keeps_internalApiCall_onFulfilled R response :
  (forall st, R st st) -> (forall a b c, R a b -> R b c -> R a c) ->
  keeps R (internalApiCall_onFulfilled response).
Proof. intros Hrefl Htrans. unfold internalApiCall_onFulfilled. frame. Qed.

Lemma quiet_settled {A} (m : M A) st :
  keeps quiet m -> requests (snd (settle_callback (m st))) = requests st.
Proof.
  intros H. specialize (H st). destruct H as (Hr & _).
  destruct (m st) as [[a|e|e| |] st1]; cbn in *; exact Hr.
Qed.

(** Whatever the transport does, [_internalApiCall] sends its one request. *)
Lemma internalApiCall_sends_one path body hdrs st :
  requests (snd (_internalApiCall path body hdrs st))
  = (requests st ++ [api_request st path body hdrs])%list.
Proof.
  unfold _internalApiCall. unfold bind at 1. unfold get.
  set (req := api_request st path body hdrs).
  assert (Hh : forall e, keeps quiet (internalApiCall_onRejected e))
    by (intro; apply keeps_internalApiCall_onRejected; eauto with frame).
  unfold catch_, then_, axios.
  destruct (transport st) as [|[response|reason] rest]; cbn; try reflexivity.
  - set (st1 := with_transport rest _).
    destruct (keeps_internalApiCall_onFulfilled quiet response quiet_refl quiet_trans st1)
      as (Hr & _).
    destruct (internalApiCall_onFulfilled response st1) as [[b|e|e| |] st2];
      cbn in *; try exact Hr; rewrite quiet_settled; auto.
  - rewrite quiet_settled; auto.
Qed.

(** ** The error handler of [_internalApiCall] *)

(** C10: a rejection that reaches the error handler of [_internalApiCall]
    and has no [config] property makes the handler itself throw while it
    dereferences [response.config], before it logs or returns anything;
    the promise of [_internalApiCall] then rejects with that secondary
    [TypeError], and the rejection it started from is lost. *)
Theorem internalApiCall_handler_fails_without_config (e : value) (st : node) :
  lacks_config e = true ->
  internalApiCall_onRejected e st = (Thrown (secondary_error e), st)
  /\ (exists message, secondary_error e = type_error message)
  /\ (forall path body hdrs rest,
        transport st = Fail e :: rest ->
        _internalApiCall path body hdrs st
        = (Rejected (secondary_error e), sent (api_request st path body hdrs) rest st)).
Proof.
  intros He. unfold lacks_config in He.
  assert (Hh : internalApiCall_onRejected e st = (Thrown (secondary_error e), st)).
  { unfold internalApiCall_onRejected, secondary_error, bind, prop.
    destruct (read e "config") as [[]|]; try discriminate; reflexivity. }
  split; [exact Hh|]. split.
  - unfold secondary_error, cannot_read. destruct (read e "config"); eexists; reflexivity.
  - intros path body hdrs rest Ht.
    unfold _internalApiCall, bind, get, catch_, then_, axios. rewrite Ht. cbn -[read].
    fold (bind (A:=value) (B:=value)).
    unfold internalApiCall_onRejected, secondary_error, bind, prop.
    destruct (read e "config") as [[]|]; try discriminate; reflexivity.
Qed.

Lemma internalApiCall_handler_fails_without_config_witness :
  let e := VStr "cancelled" in
  let st := sample_node [Fail e] in
  internalApiCall_onRejected e st = (Thrown (cannot_read VUndefined "method"), st)
  /\ _internalApiCall "/login" VUndefined (VObj []) st
     = (Rejected (cannot_read VUndefined "method"),
        sent (api_request st "/login" VUndefined (VObj [])) [] st).
Proof.
  intros e st.
  destruct (internalApiCall_handler_fails_without_config e st eq_refl) as (H1 & _ & H3).
  split; [exact H1 | apply H3; reflexivity].
Defined.

(** The same happens to an error raised inside the chain: a response
    whose envelope cannot be read makes the fulfilment callback throw a
    [TypeError], which has no [config]. *)
Lemma internalApiCall_malformed_response path body hdrs st response rest :
  transport st = Respond response :: rest ->
  payload response = None ->
  _internalApiCall path body hdrs st
  = (Rejected (cannot_read VUndefined "method"),
     sent (api_request st path body hdrs) rest st).
Proof.
  intros Ht Hp. unfold payload in Hp.
  unfold _internalApiCall, internalApiCall_onFulfilled, bind, get, catch_, then_, axios.
  rewrite Ht. cbn -[read]. unfold destructure, prop.
  destruct (read response "data") as [d|]; cbn -[read].
  - rewrite Hp. reflexivity.
  - reflexivity.
Qed.

(** ** [refreshSession] *)

(** C8: when the login-status call answers that the node is logged in,
    [refreshSession] fulfils after that single request: no open-session
    call goes out, nothing is emitted, and the session token and
    permissions are the ones held before. *)
Theorem refreshSession_logged_in st response rest result logged_in :
  transport st = Respond response :: rest ->
  payload response = Some result ->
  read result "logged_in" = Some logged_in ->
  truthy logged_in = true ->
  let st' := snd (refreshSession st) in
  refreshSession st
  = (Fulfilled VUndefined, sent (api_request st "/login" VUndefined (VObj [])) rest st)
  /\ requests st' = (requests st ++ [api_request st "/login" VUndefined (VObj [])])%list
  /\ emitted st' = emitted st
  /\ session st' = session st.
Proof.
  intros Ht Hp Hl Htrue st'.
  assert (E : refreshSession st
              = (Fulfilled VUndefined,
                 sent (api_request st "/login" VUndefined (VObj [])) rest st)).
  { unfold refreshSession, then_.
    rewrite (internalApiCall_respond _ _ _ _ _ _ _ Ht Hp).
    unfold bind, destructure. rewrite Hl.
    assert (Hc : exists c, read result "challenge" = Some c)
      by (destruct result; try discriminate; eexists; reflexivity).
    destruct Hc as [c Hc]. cbn -[read]. rewrite Hc. cbn -[read].
    rewrite Htrue. reflexivity. }
  subst st'. rewrite E. repeat split.
Qed.

Lemma refreshSession_logged_in_witness :
  let st := sample_node [Respond (login_status true "")] in
  refreshSession st
  = (Fulfilled VUndefined, sent (api_request st "/login" VUndefined (VObj [])) [] st)
  /\ requests (snd (refreshSession st)) = [api_request st "/login" VUndefined (VObj [])]
  /\ emitted (snd (refreshSession st)) = []
  /\ session (snd (refreshSession st)) = session st.
Proof.
  intros st.
  exact (refreshSession_logged_in st (login_status true "") []
           (VObj [("logged_in", VBool true); ("challenge", VStr "")]) (VBool true)
           eq_refl eq_refl eq_refl eq_refl).
Defined.



(** ** Failures of the transport *)

(** C1, as stated, fails: the signed call of a logged-in node is refused
    by the transport, and the promise of [apiCall] fulfils with the error
    object; it does not reject. *)
Lemma signed_call_failure_is_fulfilled :
  let e := network_error "get" "http://192.168.1.254:80/api/v8/connection" in
  fst (apiCall "/connection" VUndefined failing_call_node) = Fulfilled e
  /\ (forall r, fst (apiCall "/connection" VUndefined failing_call_node) <> Rejected r)
  /\ (forall r, fst (apiCall "/connection" VUndefined failing_call_node) <> Thrown r).
Proof.
  intros e.
  assert (E : fst (apiCall "/connection" VUndefined failing_call_node) = Fulfilled e)
    by (vm_compute; reflexivity).
  rewrite E. repeat split; intros r H; discriminate H.
Qed.

(** C1, amended: a transport or HTTP failure, which carries the request
    configuration, is logged by [_internalApiCall] and becomes the value
    its promise fulfils with, for the login-status, open-session and signed
    calls alike; the failure of the signed call so reaches the caller of
    [apiCall] as the value of a fulfilled promise. *)
Theorem transport_failure_is_fulfilled e m u :
  transport_failure e m u ->
  (forall st path body hdrs rest,
      transport st = Fail e :: rest ->
      _internalApiCall path body hdrs st
      = (Fulfilled e,
         log_line Error (failure_line m u) (Some e)
                  (sent (api_request st path body hdrs) rest st)))
  /\ (forall st path body v st1 rest,
        refreshSession
          (log_line Info ((if truthy body then "POST" else "GET") ++ " " ++ path) None st)
        = (Fulfilled v, st1) ->
        transport st1 = Fail e :: rest ->
        apiCall path body st
        = (Fulfilled e,
           log_line Error (failure_line m u) (Some e)
                    (sent (signed_request st1 path body) rest st1))).
Proof.
  intros He. split.
  - intros st path body hdrs rest Ht. apply internalApiCall_fail; assumption.
  - intros st path body v st1 rest Hr Ht.
    unfold apiCall, bind at 1, log_info, modify. cbn beta iota.
    fold (log_line Info ((if truthy body then "POST" else "GET") ++ " " ++ path) None st).
    unfold then_. rewrite Hr. unfold bind, get.
    rewrite (internalApiCall_fail _ _ _ _ _ _ _ _ Ht He). reflexivity.
Qed.

Lemma transport_failure_is_fulfilled_witness :
  let e := network_error "get" "http://192.168.1.254:80/api/v8/connection" in
  let st := sample_node [Fail e] in
  _internalApiCall "/login" VUndefined (VObj []) st
  = (Fulfilled e,
     log_line Error "get http://192.168.1.254:80/api/v8/connection error: " (Some e)
              (sent (api_request st "/login" VUndefined (VObj [])) [] st))
  /\ fst (apiCall "/connection" VUndefined failing_call_node) = Fulfilled e.
Proof.
  intros e st.
  assert (He : transport_failure e (VStr "get")
                 (VStr "http://192.168.1.254:80/api/v8/connection")).
  { exists (VObj [("url", VStr "http://192.168.1.254:80/api/v8/connection");
                  ("method", VStr "get")]).
    repeat split. }
  destruct (transport_failure_is_fulfilled e _ _ He) as (H1 & H2).
  split.
  - apply H1. reflexivity.
  - erewrite H2; [reflexivity | vm_compute; reflexivity | reflexivity].
Defined.

(** C2: on the node that has to log in and whose open-session call the
    transport fails, [refreshSession] still runs the callback of a
    successful call: it emits [session.opened] and replaces the session by
    one whose token and permissions are [undefined]. *)
Theorem refreshSession_failed_open_session :
  let st' := snd (refreshSession failing_login_node) in
  fst (refreshSession failing_login_node) = Fulfilled VUndefined
  /\ emitted st' = ["session.opened"]
  /\ session failing_login_node
     = [("token", VStr "old-session"); ("permissions", VObj [("settings", VBool true)])]
  /\ session st' = [("token", VUndefined); ("permissions", VUndefined)].
Proof. vm_compute. repeat split. Qed.

(** The other half of C2 holds: when the login-status call itself fails,
    the HMAC of the missing challenge throws, and nothing of the session
    is touched. *)
Lemma refreshSession_failed_login_status st e m u rest :
  transport st = Fail e :: rest ->
  transport_failure e m u ->
  read e "logged_in" = Some VUndefined ->
  read e "challenge" = Some VUndefined ->
  let st' := snd (refreshSession st) in
  (exists r, fst (refreshSession st) = Rejected r)
  /\ session st' = session st /\ emitted st' = emitted st.
Proof.
  intros Ht He Hl Hc st'. subst st'.
  unfold refreshSession, then_.
  rewrite (internalApiCall_fail _ _ _ _ _ _ _ _ Ht He).
  unfold bind, destructure. rewrite Hl. cbn -[read]. rewrite Hc. cbn -[read].
  unfold get, createHmac_sha1_hex. cbn.
  destruct (field (application st) "token"); cbn; repeat split; eexists; reflexivity.
Qed.

(** ** [logout] *)

Lemma this_call_never_fulfils path body st v st1 :
  this_call path body st <> (Fulfilled v, st1).
Proof. unfold this_call, throw. discriminate. Qed.

(** C3 (a defect of the code): [logout] applies the member [this.call],
    which the class does not have, so every invocation throws a
    [TypeError] to its caller before anything else happens: no request
    goes out, so the logout endpoint is never called, [session.closed] is
    not emitted, nothing is logged, and the session is the one held
    before. *)
Theorem logout_throws (st : node) :
  logout st = (Thrown (type_error "this.call is not a function"), st)
  /\ requests (snd (logout st)) = requests st
  /\ emitted (snd (logout st)) = emitted st
  /\ logged (snd (logout st)) = logged st
  /\ session (snd (logout st)) = session st.
Proof.
  assert (E : logout st = (Thrown (type_error "this.call is not a function"), st)).
  { unfold logout, logout_with, detach, then_, this_call, throw. reflexivity. }
  rewrite E. repeat split.
Qed.

(** The same on a node with an open session, whose transport would answer
    both the login-status request and the logout request. *)
Example logout_throws_with_open_session :
  let st := sample_node [Respond (login_status true ""); Respond (envelope VNull)] in
  fst (logout st) = Thrown (VError "TypeError" "this.call is not a function")
  /\ requests (snd (logout st)) = []
  /\ emitted (snd (logout st)) = []
  /\ logged (snd (logout st)) = []
  /\ transport (snd (logout st)) = [Respond (login_status true ""); Respond (envelope VNull)]
  /\ field (session (snd (logout st))) "token" = VStr "old-session".
Proof. vm_compute. repeat split. Qed.

(** ** Discovery *)

Lemma string_app_assoc (a b c : string) : ((a ++ b) ++ c = a ++ (b ++ c))%string.
Proof. induction a as [|x a IH]; cbn; [reflexivity | rewrite IH; reflexivity]. Qed.

Lemma substring_prefix (a b : string) :
  String.substring 0 (String.length a) (a ++ b) = a.
Proof.
  induction a as [|c a IH]; cbn.
  - destruct b; reflexivity.
  - rewrite IH. reflexivity.
Qed.

Lemma index_first_dot (major minor : string) :
  dotless major = true ->
  String.index 0 "." (major ++ String "." minor) = Some (String.length major).
Proof.
  induction major as [|c major IH]; intros Hd.
  - cbn. destruct minor; reflexivity.
  - cbn in Hd. apply andb_prop in Hd. destruct Hd as [Hc Hd].
    cbn -[ascii_dec]. destruct (ascii_dec "." c) as [E|_].
    + subst c. discriminate Hc.
    + rewrite (IH Hd). reflexivity.
Qed.

Lemma major_version_before_dot (major minor : string) :
  dotless major = true -> major_version (major ++ "." ++ minor) = major.
Proof.
  intros Hd. unfold major_version, indexOf, substr.
  change (major ++ "." ++ minor) with (major ++ String "." minor).
  rewrite (index_first_dot _ _ Hd). cbn [Z.ltb Z.compare].
  destruct major as [|c major]; [reflexivity|].
  replace (Z.of_nat (String.length (String c major)) <=? 0) with false
    by (symmetry; apply Z.leb_gt; cbn [String.length]; lia).
  rewrite Z.min_l by lia. rewrite Nat2Z.id. apply substring_prefix.
Qed.

Lemma registerApplication_same_freebox fuel : keeps same_freebox (registerApplication fuel).
Proof. apply keeps_registerApplication with (P := fun _ => True); eauto with frame. Qed.

Lemma init_onFulfilled_baseUrl fuel freeboxUrl response d base major minor st :
  read response "data" = Some (VObj d) ->
  has_key "uid" d = true ->
  field d "api_base_url" = VStr base ->
  field d "api_version" = VStr (major ++ "." ++ minor) ->
  dotless major = true ->
  field (freebox (snd (init_onFulfilled fuel freeboxUrl response st))) "baseUrl"
  = VStr (freeboxUrl ++ base ++ "v" ++ major).
Proof.
  intros Hdata Huid Hbase Hver Hdot.
  unfold init_onFulfilled.
  unfold bind at 1, destructure at 1. rewrite Hdata. unfold ret at 1. cbv beta iota.
  unfold bind at 1, has_in at 1. rewrite Huid. unfold ret at 1. cbv beta iota.
  cbn -[registerApplication detach substr indexOf to_string String.append field].
  rewrite Hver, Hbase.
  cbn -[registerApplication detach substr indexOf to_string String.append field].
  match goal with
  | |- field (freebox (snd (?tail ?st2))) _ = _ =>
      assert (K : keeps same_freebox tail)
        by (pose proof registerApplication_same_freebox; frame);
      rewrite (K st2)
  end.
  fold (major_version (major ++ "." ++ minor)).
  rewrite (major_version_before_dot _ _ Hdot). reflexivity.
Qed.

(** The error handler of [init] and the dropped promise leave the device
    identity as the callback set it. *)
Lemma init_freebox fuel config st response rest :
  transport st = Respond response :: rest ->
  freebox (snd (init fuel config st))
  = freebox (snd (init_onFulfilled fuel (freeboxUrl_of config) response
                    (sent (discovery_request (freeboxUrl_of config)) rest
                          (log_line Info ("Connecting to freebox at " ++ freeboxUrl_of config)
                                    None st)))).
Proof.
  intros Ht. unfold init, bind at 1, log_info, modify. cbv beta iota.
  fold (log_line Info ("Connecting to freebox at " ++ freeboxUrl_of config) None st).
  set (st1 := log_line _ _ _ st).
  unfold detach, catch_, then_, axios.
  replace (transport st1) with (Respond response :: rest) by (symmetry; exact Ht).
  fold (sent (discovery_request (freeboxUrl_of config)) rest st1).
  set (st2 := sent _ rest st1).
  assert (Hh : forall e s, freebox (snd (settle_callback (init_onRejected e s))) = freebox s).
  { intros e s.
    assert (K : keeps same_freebox (init_onRejected e))
      by (apply keeps_init_onRejected; eauto with frame).
    specialize (K s). unfold same_freebox in K.
    destruct (init_onRejected e s) as [[a|e'|e'| |] s']; exact K. }
  destruct (init_onFulfilled fuel (freeboxUrl_of config) response st2)
    as [[a|e|e| |] st3]; cbn [settle_callback snd]; try reflexivity.
  - specialize (Hh e st3).
    destruct (settle_callback (init_onRejected e st3)) as [[a|e'|e'| |] st4];
      cbn in *; exact Hh.
  - specialize (Hh e st3).
    destruct (settle_callback (init_onRejected e st3)) as [[a|e'|e'| |] st4];
      cbn in *; exact Hh.
Qed.

(** C5: when the discovery endpoint answers with a [uid], a base path and
    a version whose major component is followed by a dot, [init] leaves
    the node with the base URL [http://host:port], then the base path, then
    [v] and the major component. *)
Theorem init_derives_baseUrl fuel config st response rest d base major minor :
  transport st = Respond response :: rest ->
  read response "data" = Some (VObj d) ->
  has_key "uid" d = true ->
  field d "api_base_url" = VStr base ->
  field d "api_version" = VStr (major ++ "." ++ minor) ->
  dotless major = true ->
  field (freebox (snd (init fuel config st))) "baseUrl"
  = VStr ("http://" ++ to_string (field config "host") ++ ":"
            ++ to_string (field config "port") ++ base ++ "v" ++ major).
Proof.
  intros Ht Hdata Huid Hbase Hver Hdot.
  rewrite (init_freebox _ _ _ _ _ Ht).
  rewrite (init_onFulfilled_baseUrl _ _ _ _ _ _ _ _ Hdata Huid Hbase Hver Hdot).
  unfold freeboxUrl_of. f_equal.
  rewrite !string_app_assoc. reflexivity.
Qed.

Lemma init_derives_baseUrl_witness :
  field (freebox (snd (init 3 discovery_config (fresh_node [Respond discovery_response]))))
        "baseUrl"
  = VStr "http://192.168.1.254:80/api/v8".
Proof.
  exact (init_derives_baseUrl 3 discovery_config (fresh_node [Respond discovery_response])
           discovery_response []
           [("uid", VStr "abc"); ("api_base_url", VStr "/api/"); ("api_version", VStr "8.0")]
           "/api/" "8" "0" eq_refl eq_refl eq_refl eq_refl eq_refl eq_refl).
Defined.

(** ** The signed call *)

Lemma snd_settle_callback {B} (r : settlement B * node) :
  snd (settle_callback r) = snd r.
Proof. destruct r as [[b|e|e| |] st]; reflexivity. Qed.

Lemma unsigned_api_request st path body : unsigned (api_request st path body (VObj [])).
Proof. reflexivity. Qed.

Lemma unsigned_discovery freeboxUrl : unsigned (discovery_request freeboxUrl).
Proof. reflexivity. Qed.

#[local] Hint Resolve unsigned_api_request unsigned_discovery : frame.

Lemma refreshSession_unsigned : keeps (requesting unsigned) refreshSession.
Proof. apply keeps_refreshSession with (P := unsigned); eauto with frame. Qed.

Lemma registerApplication_unsigned fuel :
  keeps (requesting unsigned) (registerApplication fuel).
Proof. apply keeps_registerApplication with (P := unsigned); eauto with frame. Qed.

Lemma init_unsigned fuel config : keeps (requesting unsigned) (init fuel config).
Proof. apply keeps_init with (P := unsigned); eauto with frame. Qed.

(** C9: the request [apiCall] sends once the session is refreshed is a
    POST when it is given an object as body and a GET when it is given
    none, and carries the session token in [X-Fbx-App-Auth]; it is the only
    request of [apiCall] after those of [refreshSession].  The requests of
    [refreshSession] (login status, open session), of [registerApplication]
    (authorize, authorize status) and of [init] (discovery, then
    registration) carry no such header. *)
Theorem authorized_call_method_and_header st path body :
  let st0 :=
    log_line Info ((if truthy body then "POST" else "GET") ++ " " ++ path) None st in
  let pre := snd (refreshSession st0) in
  let signed := signed_request pre path body in
  requests (snd (apiCall path body st))
  = (requests pre
       ++ match fst (refreshSession st0) with Fulfilled _ => [signed] | _ => [] end)%list
  /\ (body = VUndefined -> method signed = VStr "GET")
  /\ (forall o, body = VObj o -> method signed = VStr "POST")
  /\ method signed = VStr (if truthy body then "POST" else "GET")
  /\ data signed = body
  /\ headers signed = VObj [("X-Fbx-App-Auth", field (session pre) "token")]
  /\ has_auth_header signed = true
  /\ requesting unsigned st pre
  /\ (forall fuel, requesting unsigned st (snd (registerApplication fuel st)))
  /\ (forall fuel config, requesting unsigned st (snd (init fuel config st))).
Proof.
  intros st0 pre signed.
  split; [|split; [|split; [|split; [|split; [|split; [|split; [|split; [|split]]]]]]]].
  - subst signed pre st0.
    unfold apiCall, bind at 1, log_info, modify, log_line. cbv beta iota.
    unfold then_.
    destruct (refreshSession _) as [[v|e|e| |] st1]; cbn [fst snd];
      try (symmetry; apply app_nil_r).
    rewrite snd_settle_callback. unfold bind, get.
    apply internalApiCall_sends_one.
  - intros ->. reflexivity.
  - intros o ->. reflexivity.
  - reflexivity.
  - reflexivity.
  - reflexivity.
  - reflexivity.
  - apply (refreshSession_unsigned st0).
  - intros fuel. apply registerApplication_unsigned.
  - intros fuel config. apply init_unsigned.
Qed.

Lemma authorized_call_method_and_header_witness :
  let st := sample_node [Respond (login_status true ""); Respond (envelope (VObj []))] in
  let signed := signed_request st "/login/logout" (VObj []) in
  requests (snd (apiCall "/login/logout" (VObj []) st))
  = [api_request st "/login" VUndefined (VObj []); signed]
  /\ method signed = VStr "POST"
  /\ method (signed_request st "/connection" VUndefined) = VStr "GET"
  /\ headers signed = VObj [("X-Fbx-App-Auth", VStr "old-session")].
Proof.
  intros st signed.
  destruct (authorized_call_method_and_header st "/login/logout" (VObj []))
    as (H1 & _ & H3 & _ & _ & H5 & _).
  destruct (authorized_call_method_and_header st "/connection" VUndefined)
    as (_ & H2 & _).
  split; [exact H1|]. split; [exact (H3 [] eq_refl)|]. split; [exact (H2 eq_refl)|].
  exact H5.
Defined.

(** ** Registration: the polling loop *)

Lemma resume_detached (again : M value) st :
  settle_callback ((detach again ;; ret VUndefined) st) = resume (again st).
Proof.
  unfold bind, detach, ret. destruct (again st) as [[a|e|e| |] st1]; reflexivity.
Qed.

Lemma registerApplication_polls fuel st :
  truthy (field (application st) "trackId") = true ->
  registerApplication (S fuel) st
  = then_ (_internalApiCall (poll_path (field (application st) "trackId")) VUndefined (VObj []))
          (registerApplication_onStatus (registerApplication fuel)) st.
Proof.
  intros Hk. cbn [registerApplication]. unfold bind at 1, get. rewrite Hk. reflexivity.
Qed.

Lemma registerApplication_authorizes fuel st :
  truthy (field (application st) "trackId") = false ->
  registerApplication (S fuel) st
  = then_ (_internalApiCall "/login/authorize" authorize_data (VObj []))
          (registerApplication_onAuthorized (registerApplication fuel)) st.
Proof.
  intros Hk. cbn [registerApplication]. unfold bind at 1, get. rewrite Hk. reflexivity.
Qed.

Lemma registerApplication_pending fuel st response result rest :
  truthy (field (application st) "trackId") = true ->
  transport st = Respond response :: rest ->
  payload response = Some result ->
  read result "status" = Some (VStr "pending") ->
  registerApplication (S fuel) st
  = resume (registerApplication fuel (after_pending rest st)).
Proof.
  intros Hk Ht Hp Hs. rewrite (registerApplication_polls _ _ Hk).
  unfold then_. rewrite (internalApiCall_respond _ _ _ _ _ _ _ Ht Hp).
  fold (poll_request st).
  unfold registerApplication_onStatus, bind at 1, destructure.
  rewrite Hs. unfold ret at 1. cbv beta iota.
  unfold bind at 1, modify at 1. cbv beta iota. cbn [is_string String.eqb Ascii.eqb Bool.eqb].
  unfold bind at 1, log_info, modify at 1. cbv beta iota.
  unfold bind at 1, emit, modify at 1. cbv beta iota.
  rewrite resume_detached. reflexivity.
Qed.

Lemma registerApplication_timeout fuel st response result rest :
  truthy (field (application st) "trackId") = true ->
  transport st = Respond response :: rest ->
  payload response = Some result ->
  read result "status" = Some (VStr "timeout") ->
  registerApplication (S fuel) st
  = resume (registerApplication fuel (after_timeout rest st)).
Proof.
  intros Hk Ht Hp Hs. rewrite (registerApplication_polls _ _ Hk).
  unfold then_. rewrite (internalApiCall_respond _ _ _ _ _ _ _ Ht Hp).
  fold (poll_request st).
  unfold registerApplication_onStatus, bind at 1, destructure.
  rewrite Hs. unfold ret at 1. cbv beta iota.
  unfold bind at 1, modify at 1. cbv beta iota. cbn [is_string String.eqb Ascii.eqb Bool.eqb].
  unfold bind at 1, log_info, modify at 1. cbv beta iota.
  unfold bind at 1, emit, modify at 1. cbv beta iota.
  do 4 (unfold bind at 1, modify at 1; cbv beta iota).
  rewrite resume_detached. reflexivity.
Qed.

Lemma registerApplication_authorized fuel st response result rest app_token track_id :
  truthy (field (application st) "trackId") = false ->
  transport st = Respond response :: rest ->
  payload response = Some result ->
  read result "app_token" = Some app_token ->
  read result "track_id" = Some track_id ->
  registerApplication (S fuel) st
  = settle_callback (registerApplication fuel (after_authorize app_token track_id rest st)).
Proof.
  intros Hk Ht Hp Ha Hi. rewrite (registerApplication_authorizes _ _ Hk).
  unfold then_. rewrite (internalApiCall_respond _ _ _ _ _ _ _ Ht Hp).
  fold (authorize_request st).
  unfold registerApplication_onAuthorized, bind at 1, destructure.
  rewrite Ha. unfold ret at 1. cbv beta iota.
  unfold bind at 1. rewrite Hi. unfold ret at 1. cbv beta iota.
  unfold bind at 1, log_info, modify at 1. cbv beta iota.
  do 3 (unfold bind at 1, modify at 1; cbv beta iota).
  reflexivity.
Qed.

Lemma field_set_field_other k k' v o :
  String.eqb k' k = false -> field (set_field k v o) k' = field o k'.
Proof.
  intros Hk. unfold field. induction o as [|[k0 v0] o IH]; cbn.
  - rewrite Hk. reflexivity.
  - destruct (String.eqb k k0) eqn:E; cbn.
    + apply String.eqb_eq in E. subst k0. rewrite Hk. reflexivity.
    + destruct (String.eqb k' k0); [reflexivity | exact IH].
Qed.

Lemma field_set_field_same k v o : field (set_field k v o) k = v.
Proof.
  unfold field. induction o as [|[k0 v0] o IH]; cbn.
  - rewrite String.eqb_refl. reflexivity.
  - destruct (String.eqb k k0) eqn:E; cbn.
    + rewrite String.eqb_refl. reflexivity.
    + rewrite E. exact IH.
Qed.

Lemma poll_request_after_pending rest st :
  poll_request (after_pending rest st) = poll_request st.
Proof.
  unfold poll_request, api_request. cbn [after_pending emitting log_line with_emitted
    with_logged with_application sent with_transport with_requests freebox application].
  rewrite field_set_field_other by reflexivity. reflexivity.
Qed.

(** The node after [n] pending polls: what it holds and what it has said. *)
Lemma after_pendings_spec n : forall st pendings rest,
  transport st = (pendings ++ rest)%list ->
  List.length pendings = n ->
  let st_n := after_pendings n st in
  emitted st_n = (emitted st ++ repeat "application.pending" n)%list
  /\ requests st_n = (requests st ++ repeat (poll_request st) n)%list
  /\ field (application st_n) "trackId" = field (application st) "trackId"
  /\ field (application st_n) "token" = field (application st) "token"
  /\ freebox st_n = freebox st
  /\ session st_n = session st
  /\ credentials st_n = credentials st
  /\ stored st_n = stored st
  /\ transport st_n = rest.
Proof.
  induction n as [|n IH]; intros st pendings rest Ht Hn st_n; subst st_n.
  - destruct pendings; [|discriminate]. cbn in *.
    rewrite !app_nil_r. repeat split. exact Ht.
  - destruct pendings as [|p pendings]; [discriminate|].
    cbn [after_pendings]. rewrite Ht. cbn [tl app].
    set (st1 := after_pending (pendings ++ rest)%list st).
    destruct (IH st1 pendings rest eq_refl ltac:(cbn in Hn; lia))
      as (He & Hr & Hk & Htok & Hf & Hse & Hc & Hst & Htr).
    rewrite He, Hr, Hk, Htok, Hf, Hse, Hc, Hst, Htr. subst st1.
    rewrite poll_request_after_pending.
    cbn [after_pending emitting log_line with_emitted with_logged with_application sent
         with_transport with_requests freebox application emitted requests session
         credentials stored repeat].
    rewrite !field_set_field_other by reflexivity.
    rewrite <- !app_assoc. repeat split.
Qed.

Lemma after_pendings_status n : forall st,
  (0 < n)%nat \/ field (application st) "status" = VStr "pending" ->
  field (application (after_pendings n st)) "status" = VStr "pending".
Proof.
  induction n as [|n IH]; intros st [H|H]; try lia; try exact H;
    cbn [after_pendings]; apply IH; right;
    cbn [after_pending emitting log_line with_emitted with_logged with_application
         application];
    apply field_set_field_same.
Qed.

Lemma registerApplication_pendings n : forall fuel st pendings rest,
  truthy (field (application st) "trackId") = true ->
  transport st = (pendings ++ rest)%list ->
  List.length pendings = n ->
  Forall (status_reply "pending") pendings ->
  registerApplication (n + fuel) st
  = Nat.iter n resume (registerApplication fuel (after_pendings n st)).
Proof.
  induction n as [|n IH]; intros fuel st pendings rest Hk Ht Hn Hp.
  - reflexivity.
  - destruct pendings as [|p pendings]; [discriminate|].
    inversion Hp as [|? ? (response & result & -> & Hpay & Hs) Hp']; subst.
    cbn [Nat.add].
    rewrite (registerApplication_pending _ _ _ _ _ Hk Ht Hpay Hs).
    cbn [after_pendings]. rewrite Ht. cbn [tl app].
    rewrite (IH fuel _ pendings rest); try assumption.
    + reflexivity.
    + cbn [after_pending emitting log_line with_emitted with_logged with_application
           application]. rewrite field_set_field_other by reflexivity. exact Hk.
    + reflexivity.
    + cbn in Hn. lia.
Qed.

Lemma then_requesting {A B} (P : request -> Prop) (p : M A) (cb : A -> M B) st :
  (forall a, keeps (requesting P) (cb a)) ->
  requesting P (snd (p st)) (snd (then_ p cb st)).
Proof.
  intros Hcb. unfold then_. destruct (p st) as [[a|e|e| |] st1]; cbn [snd];
    try apply requesting_refl.
  rewrite snd_settle_callback. apply Hcb.
Qed.

Lemma registerApplication_requesting fuel :
  keeps (requesting (fun _ => True)) (registerApplication fuel).
Proof. apply keeps_registerApplication with (P := fun _ => True); eauto with frame. Qed.

(** A node that holds a track id polls it first. *)
Lemma registerApplication_polls_first fuel st :
  truthy (field (application st) "trackId") = true ->
  exists more,
    requests (snd (registerApplication (S fuel) st))
    = (requests st ++ poll_request st :: more)%list.
Proof.
  intros Hk. rewrite (registerApplication_polls _ _ Hk).
  destruct (then_requesting (fun _ => True)
              (_internalApiCall (poll_path (field (application st) "trackId"))
                                VUndefined (VObj []))
              (registerApplication_onStatus (registerApplication fuel)) st)
    as (more & Hm & _).
  { intros a. apply keeps_onStatus; eauto with frame.
    apply registerApplication_requesting. }
  exists more. rewrite Hm, internalApiCall_sends_one, <- app_assoc. reflexivity.
Qed.

(** A node that holds none asks for an authorization first. *)
Lemma registerApplication_authorizes_first fuel st :
  truthy (field (application st) "trackId") = false ->
  exists more,
    requests (snd (registerApplication (S fuel) st))
    = (requests st ++ authorize_request st :: more)%list.
Proof.
  intros Hk. rewrite (registerApplication_authorizes _ _ Hk).
  destruct (then_requesting (fun _ => True)
              (_internalApiCall "/login/authorize" authorize_data (VObj []))
              (registerApplication_onAuthorized (registerApplication fuel)) st)
    as (more & Hm & _).
  { intros a. apply keeps_onAuthorized; eauto with frame.
    apply registerApplication_requesting. }
  exists more. rewrite Hm, internalApiCall_sends_one, <- app_assoc. reflexivity.
Qed.

Lemma status_response_reply status : status_reply status (status_response status).
Proof.
  exists (envelope (VObj [("status", VStr status)])), (VObj [("status", VStr status)]).
  repeat split.
Qed.

(** C7: a node that holds a track id and receives [n] answers [pending] in
    a row emits [application.pending] [n] times, has polled the same
    track id [n] times, holds the track id and application token it held,
    and goes on as [registerApplication] does from there, that is by
    polling that track id again. *)
Theorem pending_keeps_polling n fuel st pendings rest :
  truthy (field (application st) "trackId") = true ->
  transport st = (pendings ++ rest)%list ->
  List.length pendings = n ->
  Forall (status_reply "pending") pendings ->
  let st_n := after_pendings n st in
  registerApplication (n + fuel) st = Nat.iter n resume (registerApplication fuel st_n)
  /\ emitted st_n = (emitted st ++ repeat "application.pending" n)%list
  /\ requests st_n = (requests st ++ repeat (poll_request st) n)%list
  /\ field (application st_n) "trackId" = field (application st) "trackId"
  /\ field (application st_n) "token" = field (application st) "token"
  /\ credentials st_n = credentials st
  /\ stored st_n = stored st
  /\ transport st_n = rest
  /\ ((0 < n)%nat -> field (application st_n) "status" = VStr "pending")
  /\ (forall fuel', exists more,
        requests (snd (registerApplication (S fuel') st_n))
        = (requests st_n ++ poll_request st :: more)%list).
Proof.
  intros Hk Ht Hn Hp st_n.
  destruct (after_pendings_spec n st pendings rest Ht Hn)
    as (He & Hr & Hid & Htok & Hf & _ & Hc & Hst & Htr).
  fold st_n in He, Hr, Hid, Htok, Hf, Hc, Hst, Htr.
  split; [exact (registerApplication_pendings n fuel st pendings rest Hk Ht Hn Hp)|].
  repeat (split; [assumption|]).
  split; [intros Hpos; apply after_pendings_status; left; exact Hpos|].
  intros fuel'.
  assert (Hk' : truthy (field (application st_n) "trackId") = true)
    by (rewrite Hid; exact Hk).
  destruct (registerApplication_polls_first fuel' st_n Hk') as (more & Hm).
  exists more. rewrite Hm. unfold poll_request, api_request. rewrite Hid, Hf. reflexivity.
Qed.

Lemma pending_keeps_polling_witness :
  let st := sample_node [status_response "pending"; status_response "pending"] in
  let st_2 := after_pendings 2 st in
  registerApplication (2 + 1) st = Nat.iter 2 resume (registerApplication 1 st_2)
  /\ emitted st_2 = ["application.pending"; "application.pending"]
  /\ requests st_2 = [poll_request st; poll_request st]
  /\ field (application st_2) "trackId" = VNum 42
  /\ field (application st_2) "token" = VStr "app-token"
  /\ requests (snd (registerApplication (2 + 1) st))
     = [poll_request st; poll_request st; poll_request st].
Proof.
  intros st st_2.
  destruct (pending_keeps_polling 2 1 st
              [status_response "pending"; status_response "pending"] []
              eq_refl eq_refl eq_refl)
    as (H1 & H2 & H3 & H4 & H5 & _).
  { repeat constructor; apply status_response_reply. }
  repeat (split; [assumption|]). reflexivity.
Defined.

(** ** Registration: what the transport decides *)

(** The three ways an internal call ends: never, fulfilled with the
    [fulfilment] of the reply, or rejected; the node differs from the one
    after the request only by a logged line. *)
Lemma internalApiCall_cases path body hdrs st :
  let req := api_request st path body hdrs in
  match transport st with
  | [] =>
      _internalApiCall path body hdrs st
      = (Unsettled, with_requests (requests st ++ [req]) st)
  | r :: rest =>
      match fulfilment r with
      | Some v =>
          exists l, _internalApiCall path body hdrs st
                    = (Fulfilled v, with_logged l (sent req rest st))
      | None =>
          exists e, _internalApiCall path body hdrs st
                    = (Rejected e, sent req rest st)
      end
  end.
Proof.
  intros req. destruct (transport st) as [|r rest] eqn:Ht.
  - apply internalApiCall_unsettled. exact Ht.
  - destruct r as [response|e]; cbn [fulfilment].
    + destruct (payload response) as [v|] eqn:Hp.
      * exists (logged st). rewrite (internalApiCall_respond _ _ _ _ _ _ _ Ht Hp). reflexivity.
      * eexists. exact (internalApiCall_malformed_response _ _ _ _ _ _ Ht Hp).
    + destruct (read e "config") as [config|] eqn:Hc.
      * destruct (read config "method") as [m|] eqn:Hm.
        -- destruct (read config "url") as [u|] eqn:Hu.
           ++ eexists. rewrite (internalApiCall_fail _ _ _ _ e m u _ Ht); [reflexivity|].
              exists config. repeat split; assumption.
           ++ exists (cannot_read config "url").
              unfold _internalApiCall, bind, get, catch_, then_, axios. rewrite Ht.
              cbn -[read]. unfold internalApiCall_onRejected, bind, prop.
              rewrite Hc. cbn -[read]. rewrite Hm. cbn -[read]. rewrite Hu. reflexivity.
        -- exists (cannot_read config "method").
           unfold _internalApiCall, bind, get, catch_, then_, axios. rewrite Ht.
           cbn -[read]. unfold internalApiCall_onRejected, bind, prop.
           rewrite Hc. cbn -[read]. rewrite Hm. reflexivity.
      * exists (cannot_read e "config").
        unfold _internalApiCall, bind, get, catch_, then_, axios. rewrite Ht.
        cbn -[read]. unfold internalApiCall_onRejected, bind, prop.
        rewrite Hc. reflexivity.
Qed.

Lemma onStatus_cases again v st :
  match read v "status" with
  | None => registerApplication_onStatus again v st = (Thrown (cannot_destructure v "status"), st)
  | Some status =>
      let st1 := with_application (set_field "status" status (application st)) st in
      if is_string "pending" status then
        settle_callback (registerApplication_onStatus again v st)
        = resume (again (emitting "application.pending"
                           (log_line Info "The app is not accepted. You must register it."
                                     None st1)))
      else if is_string "granted" status then
        let creds := [("token", field (application st1) "token");
                      ("trackId", field (application st1) "trackId")] in
        registerApplication_onStatus again v st
        = (Fulfilled VUndefined,
           with_stored (Some creds)
             (with_credentials creds
                (emitting "application.granted"
                   (log_line Info "Application registered" None st1))))
      else if is_string "timeout" status then
        settle_callback (registerApplication_onStatus again v st)
        = resume (again
            (with_session []
               (with_application []
                  (with_credentials []
                     (with_stored None
                        (emitting "application.timeout"
                           (log_line Info
                              "Application not registered in time. Sending another request..."
                              None st1)))))))
      else
        registerApplication_onStatus again v st
        = (Fulfilled VUndefined,
           with_session []
             (with_application []
                (with_credentials []
                   (with_stored None
                      (emitting "application.unknown"
                         (log_line Error
                            ("Register application failed. Status is " ++ to_string status
                               ++ ". Deleting credentials") None st1))))))
  end.
Proof.
  destruct (read v "status") as [status|] eqn:Hr.
  - cbv zeta.
    destruct (is_string "pending" status) eqn:E1;
      [|destruct (is_string "granted" status) eqn:E2;
        [|destruct (is_string "timeout" status) eqn:E3]];
      unfold registerApplication_onStatus, bind, destructure, modify, log_info, log_error,
        emit, ret, detach, resume, settle_callback, emitting, log_line;
      rewrite Hr, E1, ?E2, ?E3; cbn -[to_string String.append];
      try reflexivity;
      match goal with
      | |- context [again ?s] => destruct (again s) as [[a|e|e| |] s']
      end; reflexivity.
  - unfold registerApplication_onStatus, bind, destructure. rewrite Hr. reflexivity.
Qed.

Lemma onAuthorized_cases again v st :
  match read v "app_token", read v "track_id" with
  | Some app_token, Some track_id =>
      registerApplication_onAuthorized again v st
      = again (with_application
                 (set_field "status" (VStr "")
                    (set_field "trackId" track_id
                       (set_field "token" app_token (application st))))
                 (log_line Info ("Register app token " ++ to_string app_token) None st))
  | _, _ => exists e, registerApplication_onAuthorized again v st = (Thrown e, st)
  end.
Proof.
  destruct (read v "app_token") as [app_token|] eqn:Ha;
    [destruct (read v "track_id") as [track_id|] eqn:Hi|];
    unfold registerApplication_onAuthorized, bind, destructure, modify, log_info, ret,
      log_line, throw;
    rewrite Ha, ?Hi; try reflexivity; eexists; reflexivity.
Qed.

Lemma snd_resume r : requests (snd (resume r)) = requests (snd r).
Proof. destruct r as [[a|e|e| |] st]; reflexivity. Qed.

Lemma resume_out_of_fuel r : fst r <> OutOfFuel -> fst (resume r) <> OutOfFuel.
Proof. destruct r as [[a|e|e| |] st]; cbn; intros H; congruence. Qed.

Lemma settle_out_of_fuel {B} (r : settlement B * node) :
  fst r <> OutOfFuel -> fst (settle_callback r) <> OutOfFuel.
Proof. destruct r as [[a|e|e| |] st]; cbn; intros H; congruence. Qed.

(** Every recursive call of [registerApplication] follows a reply of the
    transport: with more fuel than there are replies, the registration
    comes to its own end. *)
Lemma registerApplication_enough_fuel fuel : forall st,
  (List.length (transport st) < fuel)%nat ->
  fst (registerApplication fuel st) <> OutOfFuel.
Proof.
  induction fuel as [|fuel IH]; intros st Hlen; [lia|].
  destruct (truthy (field (application st) "trackId")) eqn:Htruthy.
  - rewrite (registerApplication_polls _ _ Htruthy). unfold then_.
    pose proof (internalApiCall_cases
                  (poll_path (field (application st) "trackId")) VUndefined (VObj []) st)
      as Hc.
    cbv zeta in Hc.
    destruct (transport st) as [|r rest] eqn:Htr; [rewrite Hc; discriminate|].
    destruct (fulfilment r) as [v|]; [|destruct Hc as (e & ->); discriminate].
    destruct Hc as (l & ->). set (st1 := with_logged l _).
    pose proof (onStatus_cases (registerApplication fuel) v st1) as Hs.
    destruct (read v "status") as [status|]; [|rewrite Hs; discriminate].
    cbv zeta in Hs.
    destruct (is_string "pending" status).
    { rewrite Hs. apply resume_out_of_fuel, IH. cbn in *. lia. }
    destruct (is_string "granted" status); [rewrite Hs; discriminate|].
    destruct (is_string "timeout" status); [|rewrite Hs; discriminate].
    rewrite Hs. apply resume_out_of_fuel, IH. cbn in *. lia.
  - rewrite (registerApplication_authorizes _ _ Htruthy). unfold then_.
    pose proof (internalApiCall_cases "/login/authorize" authorize_data (VObj []) st) as Hc.
    cbv zeta in Hc.
    destruct (transport st) as [|r rest] eqn:Htr; [rewrite Hc; discriminate|].
    destruct (fulfilment r) as [v|]; [|destruct Hc as (e & ->); discriminate].
    destruct Hc as (l & ->). set (st1 := with_logged l _).
    pose proof (onAuthorized_cases (registerApplication fuel) v st1) as Ha.
    destruct (read v "app_token") as [app_token|];
      [|destruct Ha as (e & ->); discriminate].
    destruct (read v "track_id") as [track_id|];
      [|destruct Ha as (e & ->); discriminate].
    rewrite Ha. apply settle_out_of_fuel, IH. cbn in *. lia.
Qed.

Lemma string_app_cancel (a b c : string) : (a ++ b = a ++ c)%string -> b = c.
Proof.
  induction a as [|x a IH]; cbn; intros H; [exact H|].
  injection H as H. exact (IH H).
Qed.

Section Avoid.

Variable fb : obj.
Variable k : string.

Lemma poll_avoids st :
  freebox st = fb ->
  to_string (field (application st) "trackId") <> k ->
  avoids fb k (poll_request st).
Proof.
  intros Hf Hk H. unfold poll_request, api_request, poll_path in H. cbn [url] in H.
  rewrite Hf in H. apply string_app_cancel in H.
  apply (string_app_cancel "/login/authorize/") in H. contradiction.
Qed.

Lemma authorize_avoids st : freebox st = fb -> avoids fb k (authorize_request st).
Proof.
  intros Hf H. unfold authorize_request, api_request in H. cbn [url] in H.
  rewrite Hf in H. apply string_app_cancel in H. discriminate H.
Qed.

Lemma requesting_resume st r :
  requesting (avoids fb k) st (snd r) -> requesting (avoids fb k) st (snd (resume r)).
Proof.
  intros (l & Hl & Fl). exists l. rewrite snd_resume. split; assumption.
Qed.

(** The old track id is not polled again, however long the registration
    goes on, unless the device hands it out again. *)
Lemma registerApplication_avoids fuel : forall st,
  rid_of fb k st ->
  requesting (avoids fb k) st (snd (registerApplication fuel st)).
Proof.
  induction fuel as [|fuel IH]; intros st (Hf & Hk & Ht); [apply requesting_refl|].
  destruct (truthy (field (application st) "trackId")) eqn:Htruthy.
  - (* the node polls the track id it holds *)
    rewrite (registerApplication_polls _ _ Htruthy). unfold then_.
    pose proof (internalApiCall_cases
                  (poll_path (field (application st) "trackId")) VUndefined (VObj []) st)
      as Hc.
    cbv zeta in Hc. fold (poll_request st) in Hc.
    specialize (Hk eq_refl).
    assert (Hp : avoids fb k (poll_request st)) by (apply poll_avoids; auto).
    destruct (transport st) as [|r rest] eqn:Htr.
    { rewrite Hc. apply requesting_pending. exact Hp. }
    apply Forall_cons_iff in Ht. destruct Ht as [_ Ht'].
    destruct (fulfilment r) as [v|].
    2:{ destruct Hc as (e & ->). apply requesting_axios. exact Hp. }
    destruct Hc as (l & ->). set (st1 := with_logged l _).
    apply requesting_trans with st1;
      [exists [poll_request st]; split; [reflexivity | repeat constructor; exact Hp]|].
    pose proof (onStatus_cases (registerApplication fuel) v st1) as Hs.
    destruct (read v "status") as [status|];
      [|rewrite Hs; apply requesting_refl].
    cbv zeta in Hs.
    destruct (is_string "pending" status).
    { rewrite Hs. apply requesting_resume.
      eapply requesting_trans; [|apply IH].
      - apply requesting_same. reflexivity.
      - repeat split; try assumption. subst st1.
        cbn [emitting log_line with_emitted with_logged with_application application
             sent with_transport with_requests].
        rewrite field_set_field_other by reflexivity. intros _. exact Hk. }
    destruct (is_string "granted" status).
    { rewrite Hs. apply requesting_same. reflexivity. }
    destruct (is_string "timeout" status).
    { rewrite Hs. apply requesting_resume.
      eapply requesting_trans; [|apply IH].
      - apply requesting_same. reflexivity.
      - repeat split; try assumption. intros H. discriminate H. }
    rewrite Hs. apply requesting_same. reflexivity.
  - (* the node asks for a new authorization *)
    rewrite (registerApplication_authorizes _ _ Htruthy). unfold then_.
    pose proof (internalApiCall_cases "/login/authorize" authorize_data (VObj []) st) as Hc.
    cbv zeta in Hc. fold (authorize_request st) in Hc.
    assert (Hp : avoids fb k (authorize_request st)) by (apply authorize_avoids; auto).
    destruct (transport st) as [|r rest] eqn:Htr.
    { rewrite Hc. apply requesting_pending. exact Hp. }
    apply Forall_cons_iff in Ht. destruct Ht as [Hr Ht'].
    unfold offered_track in Hr.
    destruct (fulfilment r) as [v|].
    2:{ destruct Hc as (e & ->). apply requesting_axios. exact Hp. }
    destruct Hc as (l & ->). set (st1 := with_logged l _).
    apply requesting_trans with st1;
      [exists [authorize_request st]; split; [reflexivity | repeat constructor; exact Hp]|].
    rewrite snd_settle_callback.
    pose proof (onAuthorized_cases (registerApplication fuel) v st1) as Ha.
    destruct (read v "app_token") as [app_token|];
      [|destruct Ha as (e & ->); apply requesting_refl].
    destruct (read v "track_id") as [track_id|];
      [|destruct Ha as (e & ->); apply requesting_refl].
    rewrite Ha.
    eapply requesting_trans; [|apply IH].
    + apply requesting_same. reflexivity.
    + repeat split; try assumption.
      cbn [log_line with_logged with_application application].
      rewrite field_set_field_other by reflexivity.
      rewrite field_set_field_same.
      intros Hty. rewrite Hty in Hr. congruence.
Qed.

End Avoid.

(** ** Registration: a timeout *)

(** C6: a poll that is answered [timeout] makes the node emit
    [application.timeout], delete the stored credentials and empty its
    credentials, application and session objects; the next request it
    sends is a new request for authorization; the application token and
    track id of the answer are the ones it holds when polling resumes, and
    the poll is then for that track id.  The track id it held before is
    not polled again unless the device hands it out again. *)
Theorem timeout_restarts_registration fuel st response result rest :
  truthy (field (application st) "trackId") = true ->
  transport st = Respond response :: rest ->
  payload response = Some result ->
  read result "status" = Some (VStr "timeout") ->
  let old := field (application st) "trackId" in
  let st1 := after_timeout rest st in
  registerApplication (S fuel) st = resume (registerApplication fuel st1)
  /\ emitted st1 = (emitted st ++ ["application.timeout"])%list
  /\ stored st1 = None /\ credentials st1 = [] /\ application st1 = [] /\ session st1 = []
  /\ requests st1 = (requests st ++ [poll_request st])%list
  /\ (forall fuel', exists more,
        requests (snd (registerApplication (S fuel') st1))
        = (requests st1 ++ authorize_request st :: more)%list)
  /\ (forall fuel' response' result' rest' app_token track_id,
        rest = Respond response' :: rest' ->
        payload response' = Some result' ->
        read result' "app_token" = Some app_token ->
        read result' "track_id" = Some track_id ->
        let st2 := after_authorize app_token track_id rest' st1 in
        registerApplication (S fuel') st1 = settle_callback (registerApplication fuel' st2)
        /\ application st2
           = [("token", app_token); ("trackId", track_id); ("status", VStr "")]
        /\ requests st2
           = (requests st ++ [poll_request st; authorize_request st])%list
        /\ (truthy track_id = true ->
            forall fuel'', exists more,
              requests (snd (registerApplication (S fuel'') st2))
              = (requests st2 ++ poll_request st2 :: more)%list)
        /\ (to_string track_id <> to_string old ->
            url (poll_request st2) <> url (poll_request st)))
  /\ (Forall (fun r => offered_track r <> Some (to_string old)) rest ->
      forall fuel', exists later,
        requests (snd (registerApplication fuel' st1)) = (requests st1 ++ later)%list
        /\ Forall (fun req => url req <> url (poll_request st)) later).
Proof.
  intros Hk Ht Hp Hs old st1.
  split; [exact (registerApplication_timeout fuel st response result rest Hk Ht Hp Hs)|].
  do 6 (split; [reflexivity|]).
  split; [|split].
  - intros fuel'. apply (registerApplication_authorizes_first fuel' st1). reflexivity.
  - intros fuel' response' result' rest' app_token track_id Hr Hp' Ha Hi st2.
    split; [|split; [|split; [|split]]].
    + apply (registerApplication_authorized fuel' st1 response' result' rest'); auto.
    + reflexivity.
    + subst st2 st1. cbn [after_authorize after_timeout with_application log_line
        with_logged sent with_transport with_requests with_session with_credentials
        with_stored emitting with_emitted requests].
      rewrite <- app_assoc. reflexivity.
    + intros Hty fuel''. apply registerApplication_polls_first.
      subst st2. cbn [after_authorize with_application application]. exact Hty.
    + intros Hne H. apply Hne.
      unfold poll_request, api_request, poll_path in H. cbn [url] in H.
      change (freebox st2) with (freebox st) in H.
      apply string_app_cancel in H.
      apply (string_app_cancel "/login/authorize/") in H. exact H.
  - intros Hrest fuel'.
    destruct (registerApplication_avoids (freebox st) (to_string old) fuel' st1)
      as (later & Hl & Fl).
    { split; [reflexivity|]. split; [intros H; discriminate H | exact Hrest]. }
    exists later. split; [exact Hl | exact Fl].
Qed.

Lemma timeout_restarts_registration_witness :
  let st := timeout_node in
  let st1 := after_timeout (tl (transport st)) st in
  let st2 := after_authorize (VStr "fresh-token") (VNum 43) [status_response "pending"] st1 in
  registerApplication 4 st = resume (registerApplication 3 st1)
  /\ emitted st1 = ["application.timeout"]
  /\ stored st1 = None /\ credentials st1 = [] /\ application st1 = [] /\ session st1 = []
  /\ registerApplication 3 st1 = settle_callback (registerApplication 2 st2)
  /\ application st2
     = [("token", VStr "fresh-token"); ("trackId", VNum 43); ("status", VStr "")]
  /\ url (poll_request st2) <> url (poll_request st)
  /\ (exists later,
        requests (snd (registerApplication 3 st1)) = (requests st1 ++ later)%list
        /\ Forall (fun req => url req <> url (poll_request st)) later).
Proof.
  intros st st1 st2.
  destruct (timeout_restarts_registration 3 st
              (envelope (VObj [("status", VStr "timeout")]))
              (VObj [("status", VStr "timeout")])
              [authorize_response "fresh-token" 43; status_response "pending"]
              eq_refl eq_refl eq_refl eq_refl)
    as (H1 & H2 & H3 & H4 & H5 & H6 & _ & _ & Hauth & Hnever).
  destruct (Hauth 2%nat
              (envelope (VObj [("app_token", VStr "fresh-token"); ("track_id", VNum 43)]))
              (VObj [("app_token", VStr "fresh-token"); ("track_id", VNum 43)])
              [status_response "pending"] (VStr "fresh-token") (VNum 43)
              eq_refl eq_refl eq_refl eq_refl)
    as (A1 & A2 & _ & _ & A5).
  split; [exact H1|].
  split; [exact H2|].
  split; [exact H3|].
  split; [exact H4|].
  split; [exact H5|].
  split; [exact H6|].
  split; [exact A1|].
  split; [exact A2|].
  split.
  - apply A5; intros H; discriminate H.
  - apply Hnever.
    apply Forall_cons; [intros H; discriminate H|].
    apply Forall_cons; [intros H; discriminate H|]. apply Forall_nil.
Defined.

(** When the device hands the old track id out again, it is polled again. *)
Example timeout_then_same_track_id :
  let st := sample_node [status_response "timeout"; authorize_response "fresh-token" 42;
                         status_response "pending"] in
  map url (requests (snd (registerApplication 4 st)))
  = ["http://192.168.1.254:80/api/v8/login/authorize/42";
     "http://192.168.1.254:80/api/v8/login/authorize";
     "http://192.168.1.254:80/api/v8/login/authorize/42";
     "http://192.168.1.254:80/api/v8/login/authorize/42"].
Proof. vm_compute. reflexivity. Qed.

(** ** An end-to-end run *)

(** A node without credentials discovers the device, asks for an
    authorization, is told to wait once and is then granted access: the
    credentials of the authorization answer are the ones stored. *)
Example constructor_registers :
  let run := constructor 4 discovery_config []
               [Respond discovery_response; authorize_response "fresh-token" 43;
                status_response "pending"; status_response "granted"] in
  fst run = Fulfilled tt
  /\ emitted (snd run) = ["application.pending"; "application.granted"]
  /\ stored (snd run) = Some [("token", VStr "fresh-token"); ("trackId", VNum 43)]
  /\ map url (requests (snd run))
     = ["http://192.168.1.254:80/api_version";
        "http://192.168.1.254:80/api/v8/login/authorize";
        "http://192.168.1.254:80/api/v8/login/authorize/43";
        "http://192.168.1.254:80/api/v8/login/authorize/43"].
Proof. vm_compute. repeat split. Qed.


(* ================================================================= *)
(** * Further properties *)

(** ** What an internal call leaves of the node *)

Lemma internalApiCall_fulfils path body hdrs st r rest v :
  transport st = r :: rest ->
  fulfilment r = Some v ->
  _internalApiCall path body hdrs st
  = (Fulfilled v, answered (api_request st path body hdrs) r rest st).
Proof.
  intros Ht Hf. destruct r as [response|e]; cbn [fulfilment] in Hf.
  - rewrite (internalApiCall_respond _ _ _ _ _ _ _ Ht Hf). reflexivity.
  - unfold answered, logged_after.
    destruct (read e "config") as [config|] eqn:Hc; [|discriminate].
    destruct (read config "method") as [m|] eqn:Hm; [|discriminate].
    destruct (read config "url") as [u|] eqn:Hu; [|discriminate].
    injection Hf as <-.
    rewrite (internalApiCall_fail _ _ _ _ e m u _ Ht); [reflexivity|].
    exists config. repeat split; assumption.
Qed.

(** X1: whatever the transport answers, [_internalApiCall] sends exactly
    one request, to the base URL followed by the path, takes at most one
    reply, emits nothing, and leaves the device identity, the application,
    the session, the credentials and their store as they were. *)
Theorem internalApiCall_frame path body hdrs st :
  let st' := snd (_internalApiCall path body hdrs st) in
  requests st' = (requests st ++ [api_request st path body hdrs])%list
  /\ url (api_request st path body hdrs) = to_string (field (freebox st) "baseUrl") ++ path
  /\ transport st' = tl (transport st)
  /\ emitted st' = emitted st
  /\ freebox st' = freebox st
  /\ application st' = application st
  /\ session st' = session st
  /\ credentials st' = credentials st
  /\ stored st' = stored st.
Proof.
  intros st'. subst st'.
  pose proof (internalApiCall_cases path body hdrs st) as Hc. cbv zeta in Hc.
  destruct (transport st) as [|r rest] eqn:Ht.
  - rewrite Hc. repeat split. cbn. exact Ht.
  - destruct (fulfilment r) as [v|].
    + destruct Hc as (l & ->). repeat split.
    + destruct Hc as (e & ->). repeat split.
Qed.

(** ** Registration: how a poll ends *)

Lemma registerApplication_answered fuel st r rest v :
  truthy (field (application st) "trackId") = true ->
  transport st = r :: rest ->
  fulfilment r = Some v ->
  registerApplication (S fuel) st
  = settle_callback
      (registerApplication_onStatus (registerApplication fuel) v
         (answered (poll_request st) r rest st)).
Proof.
  intros Hk Ht Hf. rewrite (registerApplication_polls _ _ Hk). unfold then_.
  rewrite (internalApiCall_fulfils _ _ _ _ _ _ _ Ht Hf). reflexivity.
Qed.

Lemma registerApplication_granted fuel st r rest v :
  truthy (field (application st) "trackId") = true ->
  transport st = r :: rest ->
  fulfilment r = Some v ->
  read v "status" = Some (VStr "granted") ->
  registerApplication (S fuel) st = (Fulfilled VUndefined, after_granted r rest st).
Proof.
  intros Hk Ht Hf Hs. rewrite (registerApplication_answered _ _ _ _ _ Hk Ht Hf).
  pose proof (onStatus_cases (registerApplication fuel) v
                (answered (poll_request st) r rest st)) as Hc.
  rewrite Hs in Hc. cbv zeta in Hc. cbn [is_string String.eqb Ascii.eqb Bool.eqb] in Hc.
  rewrite Hc. cbn [settle_callback]. unfold after_granted. f_equal.
  cbn [application with_application answered with_logged sent with_transport with_requests].
  rewrite !field_set_field_other by reflexivity. reflexivity.
Qed.

Lemma registerApplication_unknown fuel st r rest v status :
  truthy (field (application st) "trackId") = true ->
  transport st = r :: rest ->
  fulfilment r = Some v ->
  read v "status" = Some status ->
  unknown_status status = true ->
  registerApplication (S fuel) st = (Fulfilled VUndefined, after_unknown status r rest st).
Proof.
  intros Hk Ht Hf Hs Hu. rewrite (registerApplication_answered _ _ _ _ _ Hk Ht Hf).
  pose proof (onStatus_cases (registerApplication fuel) v
                (answered (poll_request st) r rest st)) as Hc.
  rewrite Hs in Hc. cbv zeta in Hc. unfold unknown_status in Hu.
  destruct (is_string "pending" status); [discriminate|].
  destruct (is_string "granted" status); [discriminate|].
  destruct (is_string "timeout" status); [discriminate|].
  rewrite Hc. reflexivity.
Qed.

Lemma field3_token t k a :
  field (set_field "status" (VStr "") (set_field "trackId" k (set_field "token" t a))) "token"
  = t.
Proof.
  rewrite !field_set_field_other by reflexivity. apply field_set_field_same.
Qed.

Lemma field3_trackId t k a :
  field (set_field "status" (VStr "") (set_field "trackId" k (set_field "token" t a)))
        "trackId"
  = k.
Proof.
  rewrite field_set_field_other by reflexivity. apply field_set_field_same.
Qed.

(** X2: a node without a track id whose request for authorization is
    answered with a token and a track id, and whose first poll of that
    track id is answered [granted], stores exactly that token and track id
    as credentials, emits [application.granted] once, has sent those two
    requests and leaves the further replies of the transport untouched. *)
Theorem registration_granted_stores_credentials
        fuel st response result r rest v app_token track_id :
  truthy (field (application st) "trackId") = false ->
  transport st = Respond response :: r :: rest ->
  payload response = Some result ->
  read result "app_token" = Some app_token ->
  read result "track_id" = Some track_id ->
  truthy track_id = true ->
  fulfilment r = Some v ->
  read v "status" = Some (VStr "granted") ->
  let run := registerApplication (S (S fuel)) st in
  fst run = Fulfilled VUndefined
  /\ stored (snd run) = Some [("token", app_token); ("trackId", track_id)]
  /\ credentials (snd run) = [("token", app_token); ("trackId", track_id)]
  /\ field (application (snd run)) "status" = VStr "granted"
  /\ emitted (snd run) = (emitted st ++ ["application.granted"])%list
  /\ requests (snd run)
     = (requests st ++ [authorize_request st;
                        api_request st (poll_path track_id) VUndefined (VObj [])])%list
  /\ transport (snd run) = rest.
Proof.
  intros Hk Ht Hp Ha Hi Hty Hf Hs run. subst run.
  rewrite (registerApplication_authorized _ _ _ _ _ _ _ Hk Ht Hp Ha Hi).
  set (st1 := after_authorize app_token track_id (r :: rest) st).
  assert (Hk1 : truthy (field (application st1) "trackId") = true).
  { subst st1. cbn [after_authorize with_application application].
    rewrite field3_trackId. exact Hty. }
  rewrite (registerApplication_granted fuel st1 r rest v Hk1 eq_refl Hf Hs).
  cbn [settle_callback fst snd].
  unfold after_granted.
  cbn [stored credentials with_stored with_credentials].
  subst st1. cbn [after_authorize with_application application].
  rewrite field3_token, field3_trackId.
  split; [reflexivity|]. split; [reflexivity|]. split; [reflexivity|]. split.
  { cbn [application with_session with_application with_credentials with_stored emitting
         with_emitted log_line with_logged]. apply field_set_field_same. }
  split; [reflexivity|]. split; [|reflexivity].
  unfold poll_request, api_request, after_authorize.
  cbn [requests with_stored with_credentials emitting with_emitted log_line with_logged
       with_application answered sent with_transport with_requests application freebox].
  rewrite field3_trackId. rewrite <- app_assoc. reflexivity.
Qed.

Lemma registration_granted_stores_credentials_witness :
  let st := fresh_node [authorize_response "fresh-token" 43; status_response "granted";
                        status_response "pending"] in
  let run := registerApplication 2 st in
  fst run = Fulfilled VUndefined
  /\ stored (snd run) = Some [("token", VStr "fresh-token"); ("trackId", VNum 43)]
  /\ emitted (snd run) = ["application.granted"]
  /\ transport (snd run) = [status_response "pending"].
Proof.
  intros st run.
  destruct (registration_granted_stores_credentials 0 st
              (envelope (VObj [("app_token", VStr "fresh-token"); ("track_id", VNum 43)]))
              (VObj [("app_token", VStr "fresh-token"); ("track_id", VNum 43)])
              (status_response "granted") [status_response "pending"]
              (VObj [("status", VStr "granted")]) (VStr "fresh-token") (VNum 43)
              eq_refl eq_refl eq_refl eq_refl eq_refl eq_refl eq_refl eq_refl)
    as (H1 & H2 & _ & _ & H5 & _ & H7).
  split; [exact H1|]. split; [exact H2|]. split; [exact H5|]. exact H7.
Defined.

(** X3: a poll that the device answers with a status other than
    [pending], [granted] and [timeout] ends the registration: the node
    emits [application.unknown], deletes the stored credentials, empties
    its credentials, application and session objects, and its promise
    fulfils without a further request; the replies the transport has left
    stay unread. *)
Theorem unknown_status_ends_registration fuel st response result rest status :
  truthy (field (application st) "trackId") = true ->
  transport st = Respond response :: rest ->
  payload response = Some result ->
  read result "status" = Some status ->
  unknown_status status = true ->
  let run := registerApplication (S fuel) st in
  fst run = Fulfilled VUndefined
  /\ emitted (snd run) = (emitted st ++ ["application.unknown"])%list
  /\ stored (snd run) = None
  /\ credentials (snd run) = [] /\ application (snd run) = [] /\ session (snd run) = []
  /\ requests (snd run) = (requests st ++ [poll_request st])%list
  /\ transport (snd run) = rest.
Proof.
  intros Hk Ht Hp Hs Hu run. subst run.
  rewrite (registerApplication_unknown fuel st (Respond response) rest result status
             Hk Ht Hp Hs Hu).
  repeat split.
Qed.

Lemma unknown_status_ends_registration_witness :
  let st := sample_node [status_response "denied"; status_response "granted"] in
  let run := registerApplication 5 st in
  fst run = Fulfilled VUndefined
  /\ emitted (snd run) = ["application.unknown"]
  /\ stored (snd run) = None
  /\ credentials (snd run) = [] /\ application (snd run) = [] /\ session (snd run) = []
  /\ requests (snd run) = [poll_request st]
  /\ transport (snd run) = [status_response "granted"].
Proof.
  intros st run.
  exact (unknown_status_ends_registration 4 st
           (envelope (VObj [("status", VStr "denied")])) (VObj [("status", VStr "denied")])
           [status_response "granted"] (VStr "denied")
           eq_refl eq_refl eq_refl eq_refl eq_refl).
Defined.

(** X4: a poll that the transport fails is handled like an unknown
    status.  The error object that [_internalApiCall] hands on has no
    [status], so after the line for the failure the node logs that the
    status is [undefined], emits [application.unknown] and deletes the
    stored credentials and its application and session state. *)
Theorem poll_failure_deletes_credentials fuel st e m u rest :
  truthy (field (application st) "trackId") = true ->
  transport st = Fail e :: rest ->
  transport_failure e m u ->
  read e "status" = Some VUndefined ->
  let run := registerApplication (S fuel) st in
  fst run = Fulfilled VUndefined
  /\ logged (snd run)
     = (logged st
          ++ [mkLog Error (failure_line m u) (Some e);
              mkLog Error "Register application failed. Status is undefined. Deleting credentials"
                    None])%list
  /\ emitted (snd run) = (emitted st ++ ["application.unknown"])%list
  /\ stored (snd run) = None
  /\ credentials (snd run) = [] /\ application (snd run) = [] /\ session (snd run) = []
  /\ requests (snd run) = (requests st ++ [poll_request st])%list
  /\ transport (snd run) = rest.
Proof.
  intros Hk Ht (config & Hc & Hm & Hu) Hs run. subst run.
  assert (Hf : fulfilment (Fail e) = Some e)
    by (cbn [fulfilment]; rewrite Hc, Hm, Hu; reflexivity).
  rewrite (registerApplication_unknown fuel st (Fail e) rest e VUndefined
             Hk Ht Hf Hs eq_refl).
  cbn [fst snd]. split; [reflexivity|]. split; [|repeat split].
  unfold after_unknown, answered, logged_after. rewrite Hc, Hm, Hu.
  cbn [logged with_session with_application with_credentials with_stored emitting
       with_emitted log_line with_logged sent with_transport with_requests].
  rewrite <- app_assoc. reflexivity.
Qed.

Lemma poll_failure_deletes_credentials_witness :
  let e := network_error "GET" "http://192.168.1.254:80/api/v8/login/authorize/42" in
  let st := with_stored (Some [("token", VStr "app-token"); ("trackId", VNum 42)])
              (sample_node [Fail e]) in
  let run := registerApplication 1 st in
  fst run = Fulfilled VUndefined
  /\ emitted (snd run) = ["application.unknown"]
  /\ stored (snd run) = None
  /\ application (snd run) = [].
Proof.
  intros e st run.
  assert (He : transport_failure e (VStr "GET")
                 (VStr "http://192.168.1.254:80/api/v8/login/authorize/42")).
  { exists (VObj [("url", VStr "http://192.168.1.254:80/api/v8/login/authorize/42");
                  ("method", VStr "GET")]).
    repeat split. }
  destruct (poll_failure_deletes_credentials 0 st e _ _ [] eq_refl eq_refl He eq_refl)
    as (H1 & _ & H3 & H4 & _ & H6 & _).
  split; [exact H1|]. split; [exact H3|]. split; [exact H4|]. exact H6.
Defined.

(** ** Registration: a request for authorization that fails *)

Lemma bare_failure_fulfilment r :
  bare_failure r -> exists e, r = Fail e /\ fulfilment r = Some e
                              /\ read e "app_token" = Some VUndefined
                              /\ read e "track_id" = Some VUndefined.
Proof.
  intros (e & m & u & -> & (config & Hc & Hm & Hu) & _ & Ha & Hi & _).
  exists e. repeat split; try assumption.
  cbn [fulfilment]. rewrite Hc, Hm, Hu. reflexivity.
Qed.

Lemma registerApplication_refused fuel st r rest :
  truthy (field (application st) "trackId") = false ->
  transport st = r :: rest ->
  bare_failure r ->
  registerApplication (S fuel) st
  = settle_callback (registerApplication fuel (after_refused r rest st)).
Proof.
  intros Hk Ht Hb. destruct (bare_failure_fulfilment r Hb) as (e & -> & Hf & Ha & Hi).
  rewrite (registerApplication_authorizes _ _ Hk). unfold then_.
  rewrite (internalApiCall_fulfils _ _ _ _ _ _ _ Ht Hf).
  pose proof (onAuthorized_cases (registerApplication fuel) e
                (answered (api_request st "/login/authorize" authorize_data (VObj []))
                          (Fail e) rest st)) as Hc.
  rewrite Ha, Hi in Hc. rewrite Hc. reflexivity.
Qed.

Lemma after_refused_frame r rest st :
  let st' := after_refused r rest st in
  truthy (field (application st') "trackId") = false
  /\ authorize_request st' = authorize_request st
  /\ emitted st' = emitted st /\ stored st' = stored st
  /\ credentials st' = credentials st /\ session st' = session st
  /\ requests st' = (requests st ++ [authorize_request st])%list
  /\ transport st' = rest.
Proof.
  intros st'. subst st'. unfold after_refused.
  cbn [application with_application]. rewrite field3_trackId. repeat split.
Qed.

Lemma after_refusals_spec n : forall st failures rest,
  transport st = (failures ++ rest)%list ->
  List.length failures = n ->
  let st_n := after_refusals n st in
  (truthy (field (application st) "trackId") = false ->
   truthy (field (application st_n) "trackId") = false)
  /\ authorize_request st_n = authorize_request st
  /\ emitted st_n = emitted st /\ stored st_n = stored st
  /\ credentials st_n = credentials st /\ session st_n = session st
  /\ requests st_n = (requests st ++ repeat (authorize_request st) n)%list
  /\ transport st_n = rest.
Proof.
  induction n as [|n IH]; intros st failures rest Ht Hn st_n; subst st_n.
  - destruct failures; [|discriminate]. cbn in *. rewrite app_nil_r. repeat split; auto.
  - destruct failures as [|r failures]; [discriminate|].
    cbn [after_refusals]. rewrite Ht. cbn [app].
    destruct (after_refused_frame r (failures ++ rest)%list st)
      as (Hk & Ha & He & Hs & Hc & Hse & Hr & Htr).
    destruct (IH (after_refused r (failures ++ rest)%list st) failures rest Htr
                 ltac:(cbn in Hn; lia))
      as (Hk' & Ha' & He' & Hs' & Hc' & Hse' & Hr' & Htr').
    rewrite Ha', He', Hs', Hc', Hse', Hr', Htr', Ha, He, Hs, Hc, Hse, Hr.
    cbn [repeat]. rewrite <- app_assoc. repeat split. intros _. apply Hk'. exact Hk.
Qed.

Lemma registerApplication_refusals n : forall fuel st failures rest,
  truthy (field (application st) "trackId") = false ->
  transport st = (failures ++ rest)%list ->
  List.length failures = n ->
  Forall bare_failure failures ->
  registerApplication (n + fuel) st
  = Nat.iter n settle_callback (registerApplication fuel (after_refusals n st)).
Proof.
  induction n as [|n IH]; intros fuel st failures rest Hk Ht Hn Hb.
  - reflexivity.
  - destruct failures as [|r failures]; [discriminate|].
    apply Forall_cons_iff in Hb. destruct Hb as [Hr Hb].
    change (transport st = r :: (failures ++ rest)%list) in Ht.
    cbn [Nat.add]. rewrite (registerApplication_refused _ _ _ _ Hk Ht Hr).
    cbn [after_refusals]. rewrite Ht. cbn [app].
    destruct (after_refused_frame r (failures ++ rest)%list st) as (Hk1 & _ & _ & _ & _ & _ & _ & Htr).
    rewrite (IH fuel _ failures rest Hk1 Htr ltac:(cbn in Hn; lia) Hb).
    reflexivity.
Qed.

(** X5: while the transport fails the request for authorization, the
    node asks again at once.  After [n] such failures in a row it has sent
    [n] requests for authorization and no other request, has emitted
    nothing, holds no track id, has left the credentials and the session
    alone, and goes on as [registerApplication] does from there: with yet
    another request for authorization. *)
Theorem failed_authorization_is_retried n fuel st failures rest :
  truthy (field (application st) "trackId") = false ->
  transport st = (failures ++ rest)%list ->
  List.length failures = n ->
  Forall bare_failure failures ->
  let st_n := after_refusals n st in
  registerApplication (n + fuel) st
  = Nat.iter n settle_callback (registerApplication fuel st_n)
  /\ requests st_n = (requests st ++ repeat (authorize_request st) n)%list
  /\ emitted st_n = emitted st
  /\ truthy (field (application st_n) "trackId") = false
  /\ stored st_n = stored st /\ credentials st_n = credentials st
  /\ session st_n = session st
  /\ transport st_n = rest
  /\ (forall fuel', exists more,
        requests (snd (registerApplication (S fuel') st_n))
        = (requests st_n ++ authorize_request st :: more)%list).
Proof.
  intros Hk Ht Hn Hb st_n.
  destruct (after_refusals_spec n st failures rest Ht Hn)
    as (Hk' & Ha & He & Hs & Hc & Hse & Hr & Htr).
  fold st_n in Hk', Ha, He, Hs, Hc, Hse, Hr, Htr.
  split; [exact (registerApplication_refusals n fuel st failures rest Hk Ht Hn Hb)|].
  split; [exact Hr|]. split; [exact He|]. split; [exact (Hk' Hk)|].
  split; [exact Hs|]. split; [exact Hc|]. split; [exact Hse|]. split; [exact Htr|].
  intros fuel'.
  destruct (registerApplication_authorizes_first fuel' st_n (Hk' Hk)) as (more & Hm).
  exists more. rewrite Hm, Ha. reflexivity.
Qed.

Lemma refused_bare : bare_failure refused.
Proof.
  exists (network_error "POST" "http://192.168.1.254:80/api/v8/login/authorize"),
         (VStr "POST"), (VStr "http://192.168.1.254:80/api/v8/login/authorize").
  split; [reflexivity|]. split; [|repeat split].
  exists (VObj [("url", VStr "http://192.168.1.254:80/api/v8/login/authorize");
                ("method", VStr "POST")]).
  repeat split.
Qed.

Lemma failed_authorization_is_retried_witness :
  let st := fresh_node [refused; refused] in
  let st_2 := after_refusals 2 st in
  requests st_2 = [authorize_request st; authorize_request st]
  /\ emitted st_2 = []
  /\ truthy (field (application st_2) "trackId") = false
  /\ requests (snd (registerApplication 3 st))
     = [authorize_request st; authorize_request st; authorize_request st].
Proof.
  intros st st_2.
  destruct (failed_authorization_is_retried 2 1 st [refused; refused] []
              eq_refl eq_refl eq_refl)
    as (_ & H2 & H3 & H4 & _).
  { apply Forall_cons; [apply refused_bare|].
    apply Forall_cons; [apply refused_bare|]. apply Forall_nil. }
  split; [exact H2|]. split; [exact H3|]. split; [exact H4|]. reflexivity.
Defined.

(** ** The session *)

Lemma refreshSession_answered st r rest result logged_in challenge :
  transport st = r :: rest ->
  fulfilment r = Some result ->
  read result "logged_in" = Some logged_in ->
  read result "challenge" = Some challenge ->
  truthy logged_in = false ->
  refreshSession st
  = settle_callback
      ((password <- createHmac_sha1_hex (field (application st) "token") challenge ;;
        then_ (_internalApiCall "/login/session" (session_data password) (VObj []))
              (fun opened =>
                 session_token <- destructure opened "session_token" ;;
                 permissions <- destructure opened "permissions" ;;
                 log_info "Session opened" ;;
                 emit "session.opened" ;;
                 modify (with_session [("token", session_token);
                                       ("permissions", permissions)]) ;;
                 ret VUndefined))
         (answered (api_request st "/login" VUndefined (VObj [])) r rest st)).
Proof.
  intros Ht Hf Hl Hc Hfalse.
  unfold refreshSession, then_ at 1.
  rewrite (internalApiCall_fulfils _ _ _ _ _ _ _ Ht Hf).
  unfold bind at 1, destructure at 1. rewrite Hl.
  unfold ret at 1. unfold bind at 1, destructure at 1. rewrite Hc.
  unfold ret at 1. rewrite Hfalse. cbn [negb].
  unfold bind at 1, get. reflexivity.
Qed.

(** X6: when the node is not logged in and both calls are answered,
    [refreshSession] replaces the session by the [session_token] and the
    [permissions] of what the open-session call fulfilled with, emits
    [session.opened] once and fulfils with [undefined]; the application
    and the stored credentials are what they were. *)
Theorem refreshSession_opens_session
        st r1 r2 rest result logged_in challenge token opened session_token permissions :
  transport st = r1 :: r2 :: rest ->
  fulfilment r1 = Some result ->
  read result "logged_in" = Some logged_in ->
  truthy logged_in = false ->
  read result "challenge" = Some (VStr challenge) ->
  field (application st) "token" = VStr token ->
  fulfilment r2 = Some opened ->
  read opened "session_token" = Some session_token ->
  read opened "permissions" = Some permissions ->
  let run := refreshSession st in
  fst run = Fulfilled VUndefined
  /\ session (snd run) = [("token", session_token); ("permissions", permissions)]
  /\ emitted (snd run) = (emitted st ++ ["session.opened"])%list
  /\ application (snd run) = application st
  /\ credentials (snd run) = credentials st /\ stored (snd run) = stored st
  /\ transport (snd run) = rest.
Proof.
  intros Ht Hf1 Hl Hfalse Hc Htok Hf2 Hst Hp run. subst run.
  set (st1 := answered (api_request st "/login" VUndefined (VObj [])) r1 (r2 :: rest) st).
  assert (E : refreshSession st
              = (Fulfilled VUndefined,
                 after_opened session_token permissions
                   (answered (api_request st1 "/login/session"
                                (session_data (VStr (Crypto.hmac_sha1_hex token challenge)))
                                (VObj []))
                             r2 rest st1))).
  { rewrite (refreshSession_answered _ _ _ _ _ _ Ht Hf1 Hl Hc Hfalse).
    rewrite Htok. unfold bind at 1. cbn [createHmac_sha1_hex ret]. fold st1.
    unfold then_.
    rewrite (internalApiCall_fulfils _ _ _ st1 r2 rest opened eq_refl Hf2).
    unfold bind at 1, destructure at 1. rewrite Hst. unfold ret at 1.
    unfold bind at 1, destructure at 1. rewrite Hp. unfold ret at 1.
    reflexivity. }
  rewrite E. repeat split.
Qed.

Lemma refreshSession_opens_session_witness :
  let st := sample_node [Respond (login_status false "challenge"); session_response "s3ss10n"] in
  let run := refreshSession st in
  fst run = Fulfilled VUndefined
  /\ session (snd run)
     = [("token", VStr "s3ss10n"); ("permissions", VObj [("settings", VBool false)])]
  /\ emitted (snd run) = ["session.opened"]
  /\ application (snd run) = application st.
Proof.
  intros st run.
  destruct (refreshSession_opens_session st
              (Respond (login_status false "challenge")) (session_response "s3ss10n") []
              (VObj [("logged_in", VBool false); ("challenge", VStr "challenge")])
              (VBool false) "challenge" "app-token"
              (VObj [("session_token", VStr "s3ss10n");
                     ("permissions", VObj [("settings", VBool false)])])
              (VStr "s3ss10n") (VObj [("settings", VBool false)])
              eq_refl eq_refl eq_refl eq_refl eq_refl eq_refl eq_refl eq_refl eq_refl)
    as (H1 & H2 & H3 & H4 & _).
  split; [exact H1|]. split; [exact H2|]. split; [exact H3|]. exact H4.
Defined.

(** A value that is no string. *)
Lemma createHmac_refuses key message st :
  match key, message with VStr _, VStr _ => False | _, _ => True end ->
  exists e, createHmac_sha1_hex key message st = (Thrown e, st).
Proof.
  intros H. unfold createHmac_sha1_hex, throw.
  destruct key; try (eexists; reflexivity).
  destruct message; try (eexists; reflexivity). contradiction.
Qed.

Lemma refreshSession_rejects st r rest result logged_in challenge :
  transport st = r :: rest ->
  fulfilment r = Some result ->
  read result "logged_in" = Some logged_in ->
  truthy logged_in = false ->
  read result "challenge" = Some challenge ->
  match field (application st) "token", challenge with
  | VStr _, VStr _ => False
  | _, _ => True
  end ->
  exists e,
    refreshSession st
    = (Rejected e, answered (api_request st "/login" VUndefined (VObj [])) r rest st).
Proof.
  intros Ht Hf Hl Hfalse Hc Hno.
  rewrite (refreshSession_answered _ _ _ _ _ _ Ht Hf Hl Hc Hfalse).
  unfold bind at 1.
  destruct (createHmac_refuses (field (application st) "token") challenge
              (answered (api_request st "/login" VUndefined (VObj [])) r rest st) Hno)
    as (e & ->).
  exists e. reflexivity.
Qed.

Lemma apiCall_unfold path body st :
  apiCall path body st
  = then_ refreshSession
          (fun _ =>
             s <- get session ;;
             _internalApiCall path body (VObj [("X-Fbx-App-Auth", field s "token")]))
          (calling path body st).
Proof. reflexivity. Qed.

Lemma apiCall_rejects path body st r rest result logged_in challenge :
  transport st = r :: rest ->
  fulfilment r = Some result ->
  read result "logged_in" = Some logged_in ->
  truthy logged_in = false ->
  read result "challenge" = Some challenge ->
  match field (application st) "token", challenge with
  | VStr _, VStr _ => False
  | _, _ => True
  end ->
  exists e,
    apiCall path body st
    = (Rejected e,
       answered (api_request st "/login" VUndefined (VObj [])) r rest (calling path body st)).
Proof.
  intros Ht Hf Hl Hfalse Hc Hno.
  destruct (refreshSession_rejects (calling path body st) r rest result logged_in challenge
              Ht Hf Hl Hfalse Hc Hno) as (e & He).
  exists e. rewrite apiCall_unfold. unfold then_. rewrite He. reflexivity.
Qed.

(** X7: when the node is not logged in and the stored application token
    or the challenge it is given is no string, the password cannot be
    computed: [refreshSession] rejects after the login-status request
    alone, and [apiCall] rejects with it, so that neither an open-session
    request nor the signed request goes out; the session is what it was
    and nothing is emitted. *)
Theorem refreshSession_needs_token_and_challenge
        st r rest result logged_in challenge path body :
  transport st = r :: rest ->
  fulfilment r = Some result ->
  read result "logged_in" = Some logged_in ->
  truthy logged_in = false ->
  read result "challenge" = Some challenge ->
  match field (application st) "token", challenge with
  | VStr _, VStr _ => False
  | _, _ => True
  end ->
  (exists e,
      refreshSession st
      = (Rejected e, answered (api_request st "/login" VUndefined (VObj [])) r rest st))
  /\ (exists e,
        apiCall path body st
        = (Rejected e,
           answered (api_request st "/login" VUndefined (VObj [])) r rest
                    (calling path body st)))
  /\ requests (snd (apiCall path body st))
     = (requests st ++ [api_request st "/login" VUndefined (VObj [])])%list
  /\ session (snd (apiCall path body st)) = session st
  /\ emitted (snd (apiCall path body st)) = emitted st.
Proof.
  intros Ht Hf Hl Hfalse Hc Hno.
  split; [exact (refreshSession_rejects _ _ _ _ _ _ Ht Hf Hl Hfalse Hc Hno)|].
  destruct (apiCall_rejects path body st r rest result logged_in challenge
              Ht Hf Hl Hfalse Hc Hno) as (e & He).
  split; [exists e; exact He|]. rewrite He. repeat split.
Qed.

Lemma refreshSession_needs_token_and_challenge_witness :
  let st := with_application [] (sample_node [Respond (login_status false "challenge")]) in
  (exists e, fst (refreshSession st) = Rejected e)
  /\ requests (snd (apiCall "/connection" VUndefined st))
     = [api_request st "/login" VUndefined (VObj [])].
Proof.
  intros st.
  destruct (refreshSession_needs_token_and_challenge st
              (Respond (login_status false "challenge")) []
              (VObj [("logged_in", VBool false); ("challenge", VStr "challenge")])
              (VBool false) (VStr "challenge") "/connection" VUndefined
              eq_refl eq_refl eq_refl eq_refl eq_refl I)
    as ((e & He) & _ & Hr & _).
  split.
  - exists e. rewrite He. reflexivity.
  - exact Hr.
Defined.

(** ** The signed call, answered *)

Lemma refreshSession_logged_in_answered st r rest result logged_in :
  transport st = r :: rest ->
  fulfilment r = Some result ->
  read result "logged_in" = Some logged_in ->
  truthy logged_in = true ->
  refreshSession st
  = (Fulfilled VUndefined, answered (api_request st "/login" VUndefined (VObj [])) r rest st).
Proof.
  intros Ht Hf Hl Htrue. unfold refreshSession, then_.
  rewrite (internalApiCall_fulfils _ _ _ _ _ _ _ Ht Hf).
  unfold bind, destructure. rewrite Hl.
  assert (Hc : exists c, read result "challenge" = Some c)
    by (destruct result; try discriminate; eexists; reflexivity).
  destruct Hc as [c Hc]. cbn -[read]. rewrite Hc. cbn -[read].
  rewrite Htrue. reflexivity.
Qed.

Lemma apiCall_logged_in path body st r1 r2 rest result logged_in v :
  transport st = r1 :: r2 :: rest ->
  fulfilment r1 = Some result ->
  read result "logged_in" = Some logged_in ->
  truthy logged_in = true ->
  fulfilment r2 = Some v ->
  apiCall path body st
  = (Fulfilled v,
     answered (signed_request st path body) r2 rest
       (answered (api_request st "/login" VUndefined (VObj [])) r1 (r2 :: rest)
          (calling path body st))).
Proof.
  intros Ht Hf1 Hl Htrue Hf2. rewrite apiCall_unfold. unfold then_.
  rewrite (refreshSession_logged_in_answered (calling path body st) r1 (r2 :: rest)
             result logged_in Ht Hf1 Hl Htrue).
  unfold bind, get.
  set (st1 := answered _ r1 (r2 :: rest) (calling path body st)).
  rewrite (internalApiCall_fulfils _ _ _ st1 r2 rest v eq_refl Hf2). reflexivity.
Qed.

(** X8: on a node that the device reports as logged in, [apiCall] sends
    the login-status request and the signed request and fulfils with what
    the signed call fulfilled with, the [result] of the envelope when the
    device answered; the call emits nothing and leaves the session, the
    application and the stored credentials as they were. *)
Theorem apiCall_returns_result path body st r1 response rest result logged_in v :
  transport st = r1 :: Respond response :: rest ->
  fulfilment r1 = Some result ->
  read result "logged_in" = Some logged_in ->
  truthy logged_in = true ->
  payload response = Some v ->
  let run := apiCall path body st in
  fst run = Fulfilled v
  /\ requests (snd run)
     = (requests st ++ [api_request st "/login" VUndefined (VObj []);
                        signed_request st path body])%list
  /\ emitted (snd run) = emitted st
  /\ session (snd run) = session st
  /\ application (snd run) = application st
  /\ stored (snd run) = stored st
  /\ transport (snd run) = rest.
Proof.
  intros Ht Hf Hl Htrue Hp run. subst run.
  rewrite (apiCall_logged_in path body st r1 (Respond response) rest result logged_in v
             Ht Hf Hl Htrue Hp).
  split; [reflexivity|]. split; [|repeat split].
  cbn [snd requests answered with_logged sent with_transport with_requests calling log_line].
  rewrite <- app_assoc. reflexivity.
Qed.

Lemma apiCall_returns_result_witness :
  let st := sample_node [Respond (login_status true "");
                         Respond (envelope (VObj [("state", VStr "up")]))] in
  let run := apiCall "/connection" VUndefined st in
  fst run = Fulfilled (VObj [("state", VStr "up")])
  /\ requests (snd run)
     = [api_request st "/login" VUndefined (VObj []);
        signed_request st "/connection" VUndefined]
  /\ session (snd run) = session st.
Proof.
  intros st run.
  destruct (apiCall_returns_result "/connection" VUndefined st
              (Respond (login_status true ""))
              (envelope (VObj [("state", VStr "up")])) []
              (VObj [("logged_in", VBool true); ("challenge", VStr "")]) (VBool true)
              (VObj [("state", VStr "up")])
              eq_refl eq_refl eq_refl eq_refl eq_refl)
    as (H1 & H2 & _ & H4 & _).
  split; [exact H1|]. split; [exact H2|]. exact H4.
Defined.

(** ** The operation nodes *)

(** X9: an operation node that takes no payload, as the two nodes of the
    file do, answers an input on a logged-in server node by one signed GET
    of its path without a body, whatever the message holds; it sends one
    message whose payload is what the call fulfilled with (the [result] of
    the device, or the error object when the transport failed the call),
    shows the green status with the date, and calls [done] once. *)
Theorem input_sends_what_the_call_fulfils
        options prettyDate msg st op r1 r2 rest result logged_in v :
  FreeboxNode.withPayload options = false ->
  transport st = r1 :: r2 :: rest ->
  fulfilment r1 = Some result ->
  read result "logged_in" = Some logged_in ->
  truthy logged_in = true ->
  fulfilment r2 = Some v ->
  exists st',
    FreeboxNode.input options prettyDate msg (Some st) op
    = (Fulfilled tt, Some st', FreeboxNode.called prettyDate v op)
    /\ FreeboxNode.sends (FreeboxNode.called prettyDate v op)
       = (FreeboxNode.sends op ++ [VObj [("payload", v)]])%list
    /\ FreeboxNode.dones (FreeboxNode.called prettyDate v op) = S (FreeboxNode.dones op)
    /\ FreeboxNode.status (FreeboxNode.called prettyDate v op)
       = Some (FreeboxNode.shape "green" "dot" ("called at: " ++ prettyDate))
    /\ requests st'
       = (requests st ++ [api_request st "/login" VUndefined (VObj []);
                          signed_request st (FreeboxNode.url options) VUndefined])%list
    /\ method (signed_request st (FreeboxNode.url options) VUndefined) = VStr "GET"
    /\ session st' = session st.
Proof.
  intros Hw Ht Hf1 Hl Htrue Hf2. eexists.
  unfold FreeboxNode.input. rewrite Hw. unfold ret at 1.
  rewrite (apiCall_logged_in (FreeboxNode.url options) VUndefined st r1 r2 rest
             result logged_in v Ht Hf1 Hl Htrue Hf2).
  split; [reflexivity|]. do 3 (split; [reflexivity|]). split; [|split; reflexivity].
  cbn [requests answered with_logged sent with_transport with_requests calling log_line].
  rewrite <- app_assoc. reflexivity.
Qed.

Lemma input_sends_what_the_call_fulfils_witness :
  let e := network_error "GET" "http://192.168.1.254:80/api/v8/lan/browser/pub" in
  let st := sample_node [Respond (login_status true ""); Fail e] in
  let op := FreeboxNode.constructor (Some st) in
  let msg := VObj [("payload", VStr "ignored")] in
  exists st',
    FreeboxNode.input FreeboxNode.FreeboxConnectedDevicesNode "Nov 2, 13:02" msg (Some st) op
    = (Fulfilled tt, Some st', FreeboxNode.called "Nov 2, 13:02" e op)
    /\ FreeboxNode.sends (FreeboxNode.called "Nov 2, 13:02" e op) = [VObj [("payload", e)]]
    /\ map url (requests st')
       = ["http://192.168.1.254:80/api/v8/login";
          "http://192.168.1.254:80/api/v8/lan/browser/pub"].
Proof.
  intros e st op msg.
  destruct (input_sends_what_the_call_fulfils FreeboxNode.FreeboxConnectedDevicesNode
              "Nov 2, 13:02" msg st op (Respond (login_status true "")) (Fail e) []
              (VObj [("logged_in", VBool true); ("challenge", VStr "")]) (VBool true) e
              eq_refl eq_refl eq_refl eq_refl eq_refl eq_refl)
    as (st' & H1 & H2 & _ & _ & H5 & _).
  exists st'. split; [exact H1|]. split; [exact H2|]. rewrite H5. reflexivity.
Defined.

(** X10: when the transport never answers the login-status request, or
    fails it, the call of an operation node does not fulfil, and its
    callback never runs: the node sends no message, keeps the status it
    shows and never calls [done] for the input. *)
Theorem input_without_answer_is_never_done options prettyDate msg st op :
  FreeboxNode.withPayload options = false ->
  transport st = [] \/ (exists r rest, transport st = r :: rest /\ bare_failure r) ->
  exists st',
    FreeboxNode.input options prettyDate msg (Some st) op = (Fulfilled tt, Some st', op)
    /\ requests st'
       = (requests st ++ [api_request st "/login" VUndefined (VObj [])])%list
    /\ emitted st' = emitted st.
Proof.
  intros Hw H. unfold FreeboxNode.input. rewrite Hw. unfold ret at 1.
  destruct H as [Ht | (r & rest & Ht & Hb)].
  - rewrite apiCall_unfold. unfold then_, refreshSession, then_.
    rewrite (internalApiCall_unsettled _ _ _
               (calling (FreeboxNode.url options) VUndefined st) Ht).
    eexists. split; [reflexivity|]. split; reflexivity.
  - destruct Hb as (e & m & u & -> & (config & Hc & Hm & Hu) & _ & _ & _ & Hl & Hch).
    destruct (apiCall_rejects (FreeboxNode.url options) VUndefined st (Fail e) rest e
                VUndefined VUndefined Ht) as (e' & ->); try assumption; try reflexivity.
    + cbn [fulfilment]. rewrite Hc, Hm, Hu. reflexivity.
    + destruct (field (application st) "token"); exact I.
    + eexists. split; [reflexivity|]. split; reflexivity.
Qed.

Lemma input_without_answer_is_never_done_witness :
  let st := sample_node [Fail (network_error "GET" "http://192.168.1.254:80/api/v8/login")] in
  let op := FreeboxNode.constructor (Some st) in
  let run := FreeboxNode.input FreeboxNode.FreeboxConnectionStatusNode "Nov 2, 13:02"
               (VObj []) (Some st) op in
  snd run = op /\ FreeboxNode.dones (snd run) = 0%nat /\ FreeboxNode.sends (snd run) = [].
Proof.
  intros st op run.
  destruct (input_without_answer_is_never_done FreeboxNode.FreeboxConnectionStatusNode
              "Nov 2, 13:02" (VObj []) st op eq_refl) as (st' & H2 & _).
  - right. exists (Fail (network_error "GET" "http://192.168.1.254:80/api/v8/login")), [].
    split; [reflexivity|].
    exists (network_error "GET" "http://192.168.1.254:80/api/v8/login"),
           (VStr "GET"), (VStr "http://192.168.1.254:80/api/v8/login").
    split; [reflexivity|]. split; [|repeat split].
    exists (VObj [("url", VStr "http://192.168.1.254:80/api/v8/login");
                  ("method", VStr "GET")]).
    repeat split.
  - subst run. rewrite H2. split; [reflexivity|]. split; reflexivity.
Defined.

(** ** The events of the server node *)

Lemma emitting_only_refl E st : emitting_only E st st.
Proof. exists []. split; [symmetry; apply app_nil_r | constructor]. Qed.

Lemma emitting_only_trans E a b c :
  emitting_only E a b -> emitting_only E b c -> emitting_only E a c.
Proof.
  intros (l1 & H1 & F1) (l2 & H2 & F2). exists (l1 ++ l2)%list. split.
  - rewrite H2, H1. symmetry. apply app_assoc.
  - apply Forall_app. split; assumption.
Qed.

Lemma emitting_only_same (E : string -> Prop) st st' :
  emitted st' = emitted st -> emitting_only E st st'.
Proof.
  intros H. exists []. split; [|constructor]. rewrite H. symmetry. apply app_nil_r.
Qed.

#[local] Hint Resolve emitting_only_refl emitting_only_trans : frame.
#[local] Hint Extern 1 (emitting_only _ _ _) =>
  (apply emitting_only_same; reflexivity) : frame.

Section Events.

Variable E : string -> Prop.





Hypothesis E_pending : E "application.pending".
Hypothesis E_granted : E "application.granted".
Hypothesis E_timeout : E "application.timeout".
Hypothesis E_unknown : E "application.unknown".






Hypothesis E_error : E "application.error".



End Events.

Lemma notify_unheard (l : list string) op :
  Forall (fun event => FreeboxNode.listener event = None) l -> FreeboxNode.notify l op = op.
Proof.
  unfold FreeboxNode.notify. revert op.
  induction l as [|event l IH]; intros op H; [reflexivity|].
  apply Forall_cons_iff in H. destruct H as [He Hl].
  cbn [fold_left]. rewrite He. apply IH. exact Hl.
Qed.



(** ** A denied registration, as an operation node shows it *)

Lemma iter_resume_fulfilled n st :
  Nat.iter n resume (Fulfilled VUndefined, st) = (Fulfilled VUndefined, st).
Proof. induction n as [|n IH]; [reflexivity|]. rewrite Nat.iter_succ, IH. reflexivity. Qed.

Lemma notify_app l1 l2 op :
  FreeboxNode.notify (l1 ++ l2) op = FreeboxNode.notify l2 (FreeboxNode.notify l1 op).
Proof. unfold FreeboxNode.notify. apply fold_left_app. Qed.

Lemma notify_pending n : forall op,
  (0 < n)%nat
  \/ FreeboxNode.status op
     = Some (FreeboxNode.shape "yellow" "dot" "server validation pending") ->
  FreeboxNode.status (FreeboxNode.notify (repeat "application.pending" n) op)
  = Some (FreeboxNode.shape "yellow" "dot" "server validation pending").
Proof.
  induction n as [|n IH]; intros op [H|H]; try lia; try exact H;
    cbn [repeat]; unfold FreeboxNode.notify; cbn [fold_left];
    apply IH; right; reflexivity.
Qed.

(** X12: after one or more [pending] answers, an answer with an unknown
    status deletes the stored credentials and emits
    [application.unknown]; no listener of an operation node is registered
    for that event, so the node goes on showing that the validation is
    pending. *)
Theorem denied_registration_shows_pending
        n fuel st pendings r rest v status op :
  truthy (field (application st) "trackId") = true ->
  transport st = (pendings ++ r :: rest)%list ->
  List.length pendings = n ->
  (0 < n)%nat ->
  Forall (status_reply "pending") pendings ->
  fulfilment r = Some v ->
  read v "status" = Some status ->
  unknown_status status = true ->
  let run := registerApplication (n + S fuel) st in
  let heard := (repeat "application.pending" n ++ ["application.unknown"])%list in
  fst run = Fulfilled VUndefined
  /\ emitted (snd run) = (emitted st ++ heard)%list
  /\ stored (snd run) = None
  /\ application (snd run) = []
  /\ FreeboxNode.status (FreeboxNode.notify heard op)
     = Some (FreeboxNode.shape "yellow" "dot" "server validation pending").
Proof.
  intros Hk Ht Hn Hpos Hp Hf Hs Hu run heard. subst run.
  rewrite (registerApplication_pendings n (S fuel) st pendings (r :: rest) Hk Ht Hn Hp).
  destruct (after_pendings_spec n st pendings (r :: rest) Ht Hn)
    as (He & _ & Hid & _ & _ & _ & _ & _ & Htr).
  set (st_n := after_pendings n st) in *.
  assert (Hk' : truthy (field (application st_n) "trackId") = true)
    by (rewrite Hid; exact Hk).
  rewrite (registerApplication_unknown fuel st_n r rest v status Hk' Htr Hf Hs Hu).
  rewrite iter_resume_fulfilled. cbn [fst snd].
  split; [reflexivity|]. split; [|split; [reflexivity|split; [reflexivity|]]].
  - unfold after_unknown.
    cbn [emitted with_session with_application with_credentials with_stored emitting
         with_emitted log_line with_logged answered sent with_transport with_requests].
    rewrite He. subst heard. rewrite <- app_assoc. reflexivity.
  - subst heard. rewrite notify_app.
    rewrite (notify_unheard ["application.unknown"]) by (repeat constructor).
    apply notify_pending. left. exact Hpos.
Qed.

Lemma denied_registration_shows_pending_witness :
  let st := sample_node [status_response "pending"; status_response "denied"] in
  let run := registerApplication 3 st in
  emitted (snd run) = ["application.pending"; "application.unknown"]
  /\ stored (snd run) = None
  /\ FreeboxNode.status
       (FreeboxNode.notify ["application.pending"; "application.unknown"]
                           (FreeboxNode.constructor (Some st)))
     = Some (FreeboxNode.shape "yellow" "dot" "server validation pending").
Proof.
  intros st run.
  destruct (denied_registration_shows_pending 1 1 st [status_response "pending"]
              (status_response "denied") [] (VObj [("status", VStr "denied")])
              (VStr "denied") (FreeboxNode.constructor (Some st))
              eq_refl eq_refl eq_refl)
    as (_ & H2 & H3 & _ & H5); try reflexivity.
  - lia.
  - repeat constructor. apply status_response_reply.
  - split; [exact H2|]. split; [exact H3|]. exact H5.
Defined.

(** ** Discovery: failures and odd answers *)

Lemma init_unfold fuel config st :
  init fuel config st
  = detach
      (catch_ (then_ (axios (discovery_request (freeboxUrl_of config)))
                     (init_onFulfilled fuel (freeboxUrl_of config)))
              init_onRejected)
      (log_line Info ("Connecting to freebox at " ++ freeboxUrl_of config) None st).
Proof. reflexivity. Qed.

Lemma init_refused fuel config st e rest :
  transport st = Fail e :: rest ->
  init fuel config st
  = detach (fun s => settle_callback (init_onRejected e s)) (discovered config rest st).
Proof.
  intros Ht. rewrite init_unfold. unfold discovered.
  set (st1 := log_line _ _ _ st).
  unfold detach, catch_, then_, axios.
  replace (transport st1) with (Fail e :: rest) by (symmetry; exact Ht).
  reflexivity.
Qed.

Lemma init_answered fuel config st response rest :
  transport st = Respond response :: rest ->
  init fuel config st
  = detach
      (catch_ (fun s => settle_callback
                          (init_onFulfilled fuel (freeboxUrl_of config) response s))
              init_onRejected)
      (discovered config rest st).
Proof.
  intros Ht. rewrite init_unfold. unfold discovered.
  set (st1 := log_line _ _ _ st).
  unfold detach, catch_, then_, axios.
  replace (transport st1) with (Respond response :: rest) by (symmetry; exact Ht).
  reflexivity.
Qed.

Lemma init_onRejected_runs e config st :
  read e "config" = Some config ->
  exists line,
    init_onRejected e st
    = (Fulfilled VUndefined, emitting "application.error" (log_line Error line (Some e) st)).
Proof.
  intros Hc. unfold init_onRejected, bind at 1, prop at 1. rewrite Hc.
  unfold ret at 1. cbv beta iota.
  destruct (truthy config) eqn:Hty.
  - assert (Hu : exists u, read config "url" = Some u)
      by (destruct config; try discriminate; eexists; reflexivity).
    destruct Hu as (u & Hu). exists ("Freebox " ++ to_string u ++ " error: ").
    unfold bind, prop. rewrite Hu. reflexivity.
  - exists "Freebox error: ". reflexivity.
Qed.

Lemma init_onRejected_logs e c st :
  read e "config" = Some c ->
  init_onRejected e st
  = (Fulfilled VUndefined,
     emitting "application.error" (log_line Error (discovery_failure_line c) (Some e) st)).
Proof.
  intros Hc. unfold init_onRejected, bind at 1, prop at 1. rewrite Hc.
  unfold ret at 1. cbv beta iota. unfold discovery_failure_line.
  destruct (truthy c) eqn:Hty.
  - assert (Hu : exists u, read c "url" = Some u)
      by (destruct c; try discriminate; eexists; reflexivity).
    destruct Hu as (u & Hu). unfold bind, prop. rewrite Hu. reflexivity.
  - reflexivity.
Qed.

(** X13: when the transport fails the discovery request with an error
    object, [init] logs the error after the line of the connection, with
    the [url] of the error's [config] when that is truthy, emits
    [application.error] once and returns; it has sent the discovery
    request alone, so no authorization is asked for, and the device
    identity, the application and the stored credentials are what they
    were. *)
Theorem init_discovery_failure fuel config st e c rest :
  transport st = Fail e :: rest ->
  read e "config" = Some c ->
  let run := init fuel config st in
  fst run = Fulfilled tt
  /\ emitted (snd run) = (emitted st ++ ["application.error"])%list
  /\ requests (snd run) = (requests st ++ [discovery_request (freeboxUrl_of config)])%list
  /\ url (discovery_request (freeboxUrl_of config))
     = "http://" ++ to_string (field config "host") ++ ":"
         ++ to_string (field config "port") ++ "/api_version"
  /\ transport (snd run) = rest
  /\ freebox (snd run) = freebox st
  /\ application (snd run) = application st
  /\ stored (snd run) = stored st
  /\ logged (snd run)
     = (logged st
          ++ [mkLog Info ("Connecting to freebox at " ++ freeboxUrl_of config) None;
              mkLog Error (discovery_failure_line c) (Some e)])%list.
Proof.
  intros Ht Hc run. subst run.
  pose proof (init_onRejected_logs e c (discovered config rest st) Hc) as Hl.
  assert (E : init fuel config st
              = (Fulfilled tt,
                 emitting "application.error"
                   (log_line Error (discovery_failure_line c) (Some e)
                             (discovered config rest st)))).
  { rewrite (init_refused _ _ _ _ _ Ht). unfold detach. rewrite Hl. reflexivity. }
  rewrite E. split; [reflexivity|]. split; [reflexivity|]. split; [reflexivity|].
  split; [|repeat split].
  - unfold discovery_request, freeboxUrl_of. cbn [url]. rewrite !string_app_assoc.
    reflexivity.
  - cbn [snd emitting discovered sent log_line logged with_emitted with_logged
         with_transport with_requests].
    rewrite <- app_assoc. reflexivity.
Qed.

Lemma init_discovery_failure_witness :
  let e := network_error "get" "http://192.168.1.254:80/api_version" in
  let st := fresh_node [Fail e; authorize_response "fresh-token" 43] in
  let run := init 3 discovery_config st in
  fst run = Fulfilled tt
  /\ emitted (snd run) = ["application.error"]
  /\ map url (requests (snd run)) = ["http://192.168.1.254:80/api_version"]
  /\ transport (snd run) = [authorize_response "fresh-token" 43]
  /\ logged (snd run)
     = [mkLog Info "Connecting to freebox at http://192.168.1.254:80" None;
        mkLog Error "Freebox http://192.168.1.254:80/api_version error: " (Some e)].
Proof.
  intros e st run.
  destruct (init_discovery_failure 3 discovery_config st e
              (VObj [("url", VStr "http://192.168.1.254:80/api_version");
                     ("method", VStr "get")])
              [authorize_response "fresh-token" 43] eq_refl eq_refl)
    as (H1 & H2 & H3 & _ & H5 & _ & _ & _ & H9).
  split; [exact H1|]. split; [exact H2|].
  split; [unfold run; rewrite H3; reflexivity|]. split; [exact H5|].
  unfold run; rewrite H9; reflexivity.
Defined.

Lemma init_onFulfilled_throws fuel freeboxUrl response d st :
  read response "data" = Some (VObj d) ->
  has_key "uid" d = false \/ not_a_string (field d "api_version") ->
  exists x,
    init_onFulfilled fuel freeboxUrl response st = (Thrown x, st)
    /\ read x "config" = Some VUndefined
    /\ (has_key "uid" d = false -> x = VStr "No uid in response").
Proof.
  intros Hd H. unfold init_onFulfilled, bind at 1, destructure at 1. rewrite Hd.
  unfold ret at 1. cbv beta iota. unfold bind at 1, has_in at 1, ret at 1.
  destruct (has_key "uid" d) eqn:Huid.
  - destruct H as [H|H]; [discriminate|].
    cbn -[registerApplication detach substr indexOf to_string String.append field].
    destruct (field d "api_version") as [| | b | n | s0 | o | nm msg]; try contradiction;
      (eexists; split; [reflexivity|]; split; [reflexivity|]; intros H'; discriminate H').
  - exists (VStr "No uid in response"). repeat split.
Qed.

(** X14: a discovery answer whose data has no [uid], or whose
    [api_version] is no string, makes the callback throw; [init] then logs
    the error, emits [application.error] once and returns: the device
    identity is not touched and no authorization is asked for. *)
Theorem init_malformed_discovery fuel config st response d rest :
  transport st = Respond response :: rest ->
  read response "data" = Some (VObj d) ->
  has_key "uid" d = false \/ not_a_string (field d "api_version") ->
  exists x,
    init fuel config st
    = (Fulfilled tt,
       emitting "application.error"
         (log_line Error "Freebox error: " (Some x) (discovered config rest st)))
    /\ (has_key "uid" d = false -> x = VStr "No uid in response")
    /\ freebox (snd (init fuel config st)) = freebox st
    /\ emitted (snd (init fuel config st)) = (emitted st ++ ["application.error"])%list
    /\ requests (snd (init fuel config st))
       = (requests st ++ [discovery_request (freeboxUrl_of config)])%list.
Proof.
  intros Ht Hd H.
  destruct (init_onFulfilled_throws fuel (freeboxUrl_of config) response d
              (discovered config rest st) Hd H) as (x & Hx & Hc & Huid).
  exists x.
  assert (E : init fuel config st
              = (Fulfilled tt,
                 emitting "application.error"
                   (log_line Error "Freebox error: " (Some x) (discovered config rest st)))).
  { rewrite (init_answered _ _ _ _ _ Ht). unfold detach, catch_. rewrite Hx.
    cbn [settle_callback].
    unfold init_onRejected, bind at 1, prop at 1. rewrite Hc. reflexivity. }
  rewrite E. repeat split. exact Huid.
Qed.

Lemma init_malformed_discovery_witness :
  let response := VObj [("data", VObj [("api_base_url", VStr "/api/");
                                       ("api_version", VStr "8.0")])] in
  let st := fresh_node [Respond response; authorize_response "fresh-token" 43] in
  emitted (snd (init 3 discovery_config st)) = ["application.error"]
  /\ freebox (snd (init 3 discovery_config st)) = freebox st
  /\ requests (snd (init 3 discovery_config st))
     = [discovery_request (freeboxUrl_of discovery_config)].
Proof.
  intros response st.
  destruct (init_malformed_discovery 3 discovery_config st response
              [("api_base_url", VStr "/api/"); ("api_version", VStr "8.0")]
              [authorize_response "fresh-token" 43] eq_refl eq_refl (or_introl eq_refl))
    as (x & _ & _ & H3 & H4 & H5).
  split; [exact H4|]. split; [exact H3|]. exact H5.
Defined.

Lemma init_onFulfilled_identifies fuel freeboxUrl response d v st :
  read response "data" = Some (VObj d) ->
  has_key "uid" d = true ->
  field d "api_version" = VStr v ->
  init_onFulfilled fuel freeboxUrl response st
  = init_registers fuel (with_freebox (identity freeboxUrl d v) st).
Proof.
  intros Hdata Huid Hver.
  unfold init_onFulfilled.
  unfold bind at 1, destructure at 1. rewrite Hdata. unfold ret at 1. cbv beta iota.
  unfold bind at 1, has_in at 1. rewrite Huid. unfold ret at 1. cbv beta iota.
  cbn -[registerApplication detach substr indexOf to_string String.append field].
  rewrite Hver.
  cbn -[registerApplication detach substr indexOf to_string String.append field].
  reflexivity.
Qed.

Lemma init_registers_same_freebox fuel : keeps same_freebox (init_registers fuel).
Proof.
  pose proof registerApplication_same_freebox. unfold init_registers. frame.
Qed.

Lemma index_dotless (s : string) : dotless s = true -> String.index 0 "." s = None.
Proof.
  induction s as [|c s IH]; intros Hd; [reflexivity|].
  cbn in Hd. apply andb_prop in Hd. destruct Hd as [Hc Hd].
  cbn -[ascii_dec]. destruct (ascii_dec "." c) as [E|_].
  - subst c. discriminate Hc.
  - rewrite (IH Hd). reflexivity.
Qed.

(** X15: a version the device reports without a dot has no major
    component for [init]: [indexOf] gives -1, [substr] of a negative length
    the empty string, and the base URL ends with a bare [v]. *)
Theorem init_version_without_dot fuel config st response rest d base v :
  transport st = Respond response :: rest ->
  read response "data" = Some (VObj d) ->
  has_key "uid" d = true ->
  field d "api_base_url" = VStr base ->
  field d "api_version" = VStr v ->
  dotless v = true ->
  major_version v = ""
  /\ field (freebox (snd (init fuel config st))) "baseUrl"
     = VStr ("http://" ++ to_string (field config "host") ++ ":"
               ++ to_string (field config "port") ++ base ++ "v").
Proof.
  intros Ht Hdata Huid Hbase Hver Hdot.
  assert (Hm : major_version v = "").
  { unfold major_version, indexOf. rewrite (index_dotless _ Hdot). reflexivity. }
  split; [exact Hm|].
  rewrite (init_freebox _ _ _ _ _ Ht).
  rewrite (init_onFulfilled_identifies _ _ _ _ _ _ Hdata Huid Hver).
  rewrite (init_registers_same_freebox fuel _).
  unfold identity. cbn [freebox with_freebox field assoc String.eqb Ascii.eqb Bool.eqb].
  rewrite Hbase, Hm. cbn [to_string]. unfold freeboxUrl_of. f_equal.
  rewrite !string_app_assoc. reflexivity.
Qed.

Lemma init_version_without_dot_witness :
  let response := VObj [("data", VObj [("uid", VStr "abc"); ("api_base_url", VStr "/api/");
                                       ("api_version", VStr "8")])] in
  field (freebox (snd (init 3 discovery_config (fresh_node [Respond response])))) "baseUrl"
  = VStr "http://192.168.1.254:80/api/v".
Proof.
  intros response.
  exact (proj2 (init_version_without_dot 3 discovery_config (fresh_node [Respond response])
                  response []
                  [("uid", VStr "abc"); ("api_base_url", VStr "/api/");
                   ("api_version", VStr "8")]
                  "/api/" "8" eq_refl eq_refl eq_refl eq_refl eq_refl eq_refl)).
Defined.

(** ** A restart with stored credentials *)

Lemma init_requests fuel config st response rest :
  transport st = Respond response :: rest ->
  requests (snd (init fuel config st))
  = requests (snd (init_onFulfilled fuel (freeboxUrl_of config) response
                     (discovered config rest st))).
Proof.
  intros Ht. rewrite (init_answered _ _ _ _ _ Ht). unfold detach, catch_.
  assert (Hh : forall e s, requests (snd (settle_callback (init_onRejected e s)))
                           = requests s).
  { intros e s. apply quiet_settled. apply keeps_init_onRejected; eauto with frame. }
  destruct (init_onFulfilled fuel (freeboxUrl_of config) response (discovered config rest st))
    as [[a|e|e| |] st3]; cbn [settle_callback snd]; try reflexivity.
  - specialize (Hh e st3).
    destruct (settle_callback (init_onRejected e st3)) as [[a|e'|e'| |] st4];
      cbn in *; exact Hh.
  - specialize (Hh e st3).
    destruct (settle_callback (init_onRejected e st3)) as [[a|e'|e'| |] st4];
      cbn in *; exact Hh.
Qed.

Lemma init_registers_requests fuel st :
  is_string "granted" (field (application st) "status") = false ->
  requests (snd (init_registers fuel st)) = requests (snd (registerApplication fuel st)).
Proof.
  intros Hs. unfold init_registers, bind, get. rewrite Hs. cbn [negb].
  unfold detach, ret.
  destruct (registerApplication fuel st) as [[a|e|e| |] st1]; reflexivity.
Qed.

(** X16: the constructor sets the status of the application to the
    empty string, whatever was granted before.  So a server node that is
    constructed with a stored track id, and whose discovery request is
    answered, registers again: after the discovery request its next
    request is the poll of the stored track id on the base URL it has just
    derived, and not a request for a new authorization. *)
Theorem constructor_polls_stored_track_id fuel config creds response rest d v :
  truthy (field creds "trackId") = true ->
  read response "data" = Some (VObj d) ->
  has_key "uid" d = true ->
  field d "api_version" = VStr v ->
  exists more,
    requests (snd (constructor (S fuel) config creds (Respond response :: rest)))
    = discovery_request (freeboxUrl_of config)
      :: mkRequest (freeboxUrl_of config ++ to_string (field d "api_base_url") ++ "v"
                      ++ major_version v ++ poll_path (field creds "trackId"))
                   VUndefined (VStr "GET") (VObj [])
      :: more.
Proof.
  intros Hk Hdata Huid Hver. unfold constructor.
  set (st0 := mkNode _ _ _ _ _ _ _ _ _ _).
  rewrite (init_requests (S fuel) config st0 response rest eq_refl).
  rewrite (init_onFulfilled_identifies _ _ _ _ _ _ Hdata Huid Hver).
  set (st1 := with_freebox _ _).
  rewrite (init_registers_requests (S fuel) st1 eq_refl).
  assert (Hid : field (application st1) "trackId" = field creds "trackId").
  { subst st1 st0. cbn [application with_freebox discovered sent with_transport
      with_requests log_line with_logged field assoc String.eqb Ascii.eqb Bool.eqb].
    rewrite Hk. reflexivity. }
  assert (Hk1 : truthy (field (application st1) "trackId") = true)
    by (rewrite Hid; exact Hk).
  destruct (registerApplication_polls_first fuel st1 Hk1) as (more & Hm).
  exists more. rewrite Hm. unfold poll_request, api_request. rewrite Hid.
  subst st1 st0. unfold identity.
  cbn [requests freebox with_freebox discovered sent with_transport with_requests log_line
       with_logged app field assoc String.eqb Ascii.eqb Bool.eqb to_string truthy].
  rewrite !string_app_assoc. reflexivity.
Qed.

Lemma constructor_polls_stored_track_id_witness :
  exists more,
    map url (requests (snd (constructor 2 discovery_config
                              [("token", VStr "app-token"); ("trackId", VNum 42)]
                              [Respond discovery_response])))
    = "http://192.168.1.254:80/api_version"
      :: "http://192.168.1.254:80/api/v8/login/authorize/42" :: more.
Proof.
  destruct (constructor_polls_stored_track_id 1 discovery_config
              [("token", VStr "app-token"); ("trackId", VNum 42)]
              discovery_response []
              [("uid", VStr "abc"); ("api_base_url", VStr "/api/"); ("api_version", VStr "8.0")]
              "8.0" eq_refl eq_refl eq_refl eq_refl) as (more & Hm).
  exists (map url more). rewrite Hm. reflexivity.
Defined.

(** ** Registration: one request at a time *)

Lemma resume_node r :
  requests (snd (resume r)) = requests (snd r)
  /\ transport (snd (resume r)) = transport (snd r).
Proof. destruct r as [[a|e|e| |] st]; split; reflexivity. Qed.

(** X17: [registerApplication] sends a request only when the one before
    has been answered: over a whole run, however much fuel it is given, the
    requests it sends are at most one more than the replies it takes from
    the transport. *)
Theorem registration_has_one_request_in_flight fuel : forall st,
  let st' := snd (registerApplication fuel st) in
  (List.length (requests st') + List.length (transport st')
   <= S (List.length (requests st) + List.length (transport st)))%nat.
Proof.
  induction fuel as [|fuel IH]; intros st st'; subst st'; [cbn; lia|].
  assert (Hstep : forall r rest req l (st2 : node) (run : settlement value * node),
             transport st = r :: rest ->
             requests st2 = requests (with_logged l (sent req rest st)) ->
             transport st2 = transport (with_logged l (sent req rest st)) ->
             requests (snd run) = requests (snd (registerApplication fuel st2)) ->
             transport (snd run) = transport (snd (registerApplication fuel st2)) ->
             (List.length (requests (snd run)) + List.length (transport (snd run))
              <= S (List.length (requests st) + List.length (transport st)))%nat).
  { intros r rest req l st2 run Ht Hr Htr -> ->.
    pose proof (IH st2) as H. cbv zeta in H. rewrite Hr, Htr in H.
    cbn [requests transport with_logged sent with_transport with_requests] in H.
    rewrite length_app in H. rewrite Ht. cbn [List.length] in *. lia. }
  assert (Hstop : forall r rest req l (st2 : node),
             transport st = r :: rest ->
             requests st2 = requests (with_logged l (sent req rest st)) ->
             transport st2 = transport (with_logged l (sent req rest st)) ->
             (List.length (requests st2) + List.length (transport st2)
              <= S (List.length (requests st) + List.length (transport st)))%nat).
  { intros r rest req l st2 Ht -> ->.
    cbn [requests transport with_logged sent with_transport with_requests].
    rewrite length_app, Ht. cbn [List.length]. lia. }
  destruct (truthy (field (application st) "trackId")) eqn:Htruthy.
  - rewrite (registerApplication_polls _ _ Htruthy). unfold then_.
    pose proof (internalApiCall_cases
                  (poll_path (field (application st) "trackId")) VUndefined (VObj []) st)
      as Hc.
    cbv zeta in Hc.
    destruct (transport st) as [|r rest] eqn:Htr.
    { rewrite Hc. cbn [snd requests transport with_requests]. rewrite Htr, length_app.
      cbn. lia. }
    destruct (fulfilment r) as [v|].
    2:{ destruct Hc as (e & ->). cbn [snd].
        eapply Hstop; reflexivity. }
    destruct Hc as (l & ->).
    set (req := api_request st _ _ _) in *.
    set (st1 := with_logged l (sent req rest st)).
    pose proof (onStatus_cases (registerApplication fuel) v st1) as Hs.
    destruct (read v "status") as [status|];
      [|rewrite Hs; apply (Hstop r rest req l _ eq_refl); reflexivity].
    cbv zeta in Hs.
    destruct (is_string "pending" status).
    { rewrite Hs.
      match goal with
      | |- context [resume (registerApplication fuel ?s)] =>
          apply (Hstep r rest req l s _ eq_refl); try reflexivity;
            apply resume_node
      end. }
    destruct (is_string "granted" status);
      [rewrite Hs; apply (Hstop r rest req l _ eq_refl); reflexivity|].
    destruct (is_string "timeout" status);
      [|rewrite Hs; apply (Hstop r rest req l _ eq_refl); reflexivity].
    rewrite Hs.
    match goal with
    | |- context [resume (registerApplication fuel ?s)] =>
        apply (Hstep r rest req l s _ eq_refl); try reflexivity;
          apply resume_node
    end.
  - rewrite (registerApplication_authorizes _ _ Htruthy). unfold then_.
    pose proof (internalApiCall_cases "/login/authorize" authorize_data (VObj []) st) as Hc.
    cbv zeta in Hc.
    destruct (transport st) as [|r rest] eqn:Htr.
    { rewrite Hc. cbn [snd requests transport with_requests]. rewrite Htr, length_app.
      cbn. lia. }
    destruct (fulfilment r) as [v|].
    2:{ destruct Hc as (e & ->). cbn [snd].
        eapply Hstop; reflexivity. }
    destruct Hc as (l & ->).
    set (req := api_request st _ _ _) in *.
    set (st1 := with_logged l (sent req rest st)).
    pose proof (onAuthorized_cases (registerApplication fuel) v st1) as Ha.
    destruct (read v "app_token") as [app_token|];
      [|destruct Ha as (e & ->); apply (Hstop r rest req l _ eq_refl); reflexivity].
    destruct (read v "track_id") as [track_id|];
      [|destruct Ha as (e & ->); apply (Hstop r rest req l _ eq_refl); reflexivity].
    rewrite Ha.
    match goal with
    | |- context [settle_callback (registerApplication fuel ?s)] =>
        apply (Hstep r rest req l s _ eq_refl); try reflexivity;
          rewrite snd_settle_callback; reflexivity
    end.
Qed.
